(** * FindCandidateWords: a shallow embedding of the notebook and its properties

    The repository is a Jupyter notebook ([FindCandidateWords.ipynb]) that
    builds wildcard patterns from the known letters of a Wordle-like puzzle,
    asks a word service for the words that match each pattern and filters the
    answers.  A second notebook of the repository is an earlier draft of
    the same pipeline.

    The cells are embedded one definition per notebook variable, under the
    variable's name.  The word service is a parameter of the development.

    Modelling conventions.
    - A Python [str] is a [string]; the one-character strings that the
      notebook keeps in lists ([list(w)], [known_pattern], [avail_letters])
      are [ascii] characters, so the model covers the code points below 256.
    - Python integers that may be negative (the positions of
      [known_letters_loc]) are in [Z]; [word_length] and the values of
      [range(word_length)] are in [nat].
    - A cell that can raise returns a [result]; the cells run in sequence and
      the first exception stops the run. *)

From Stdlib Require Import ZArith Lia Ascii String Factorial.
From stdpp Require Import base list gmap strings sorting.

(** ** Python built-ins used by the cells *)

Module Py.

(** The exceptions of interest.  [IndexError] is raised by list and array
    indexing, [RequestError] stands for any failure of the HTTP request or
    of the decoding of its answer.  [ConstraintError] is the error that the
    specification names for invalid constraints; no cell raises it. *)
Inductive exn : Type :=
| IndexError
| RequestError
| ConstraintError.

Inductive result (A : Type) : Type :=
| Ok (a : A)
| Raise (e : exn).
Arguments Ok {A} a.
Arguments Raise {A} e.

#[global] Instance result_ret : MRet result := fun A a => Ok a.
#[global] Instance result_bind : MBind result := fun A B f m =>
  match m with
  | Ok a => f a
  | Raise e => Raise e
  end.
#[global] Instance result_fmap : FMap result := fun A B f m =>
  match m with
  | Ok a => Ok (f a)
  | Raise e => Raise e
  end.

(** [for x in l: acc = f(acc, x)] where the body can raise. *)
Fixpoint foldlM {A B : Type} (f : A -> B -> result A) (acc : A) (l : list B)
  : result A :=
  match l with
  | [] => Ok acc
  | x :: l' => acc' ← f acc x; foldlM f acc' l'
  end.

(** [for x in l: out.append(f(x))] where the body can raise. *)
Fixpoint mapM {A B : Type} (f : A -> result B) (l : list A) : result (list B) :=
  match l with
  | [] => Ok []
  | x :: l' => y ← f x; ys ← mapM f l'; Ok (y :: ys)
  end.

(** [sorted(l, key=key)]: Python's sort is stable, elements with equal keys
    keep their relative order. *)
Fixpoint insert_by {A : Type} (key : A -> Z) (x : A) (l : list A) : list A :=
  match l with
  | [] => [x]
  | y :: l' =>
      if decide (key x <= key y)%Z then x :: y :: l' else y :: insert_by key x l'
  end.

Definition sorted {A : Type} (l : list A) (key : A -> Z) : list A :=
  foldr (insert_by key) [] l.

(** [range(n)] *)
Definition range (n : nat) : list nat := seq 0 n.

(** [l[i] = x] for a non-negative index: raises [IndexError] out of range. *)
Definition setitem {A : Type} (l : list A) (i : nat) (x : A) : result (list A) :=
  if decide (i < length l) then Ok (<[i:=x]> l) else Raise IndexError.

(** [''.join(l)] for a list [l] of one-character strings. *)
Definition join_chars (l : list ascii) : string := string_of_list_ascii l.

(** [list(w)] *)
Definition chars (w : string) : list ascii := list_ascii_of_string w.

(** [sep.join(l)] *)
Fixpoint join (sep : string) (l : list string) : string :=
  match l with
  | [] => ""
  | [s] => s
  | s :: l' => s +:+ sep +:+ join sep l'
  end.

(** [str(c)] for a character kept in a list. *)
Definition str (c : ascii) : string := String c "".

End Py.

Export Py (result(..), exn(..)).

(** ** [itertools] *)

Module itertools.

(** [itertools.combinations(l, r)]: the [r]-element subsequences of [l], in
    lexicographic order of the chosen indices. *)
Fixpoint combinations {A : Type} (l : list A) (r : nat) : list (list A) :=
  match r with
  | 0 => [[]]
  | S r' =>
      match l with
      | [] => []
      | x :: xs => map (cons x) (combinations xs r') ++ combinations xs r
      end
  end.

(** All the ways to take one element out of [l], first index first. *)
Fixpoint selects {A : Type} (l : list A) : list (A * list A) :=
  match l with
  | [] => []
  | x :: xs => (x, xs) :: map (fun s => (s.1, x :: s.2)) (selects xs)
  end.

Fixpoint permutations_of_length {A : Type} (n : nat) (l : list A) : list (list A) :=
  match n with
  | 0 => [[]]
  | S n' =>
      flat_map (fun s => map (cons s.1) (permutations_of_length n' s.2)) (selects l)
  end.

(** [itertools.permutations(l)]: the orderings of [l], in lexicographic
    order of the indices. *)
Definition permutations {A : Type} (l : list A) : list (list A) :=
  permutations_of_length (length l) l.

End itertools.

(** ** [numpy] arrays of characters *)

Module np.

Abbreviation row := (list ascii).

(** The arrays of the notebook are built by [np.array] from a list of rows
    of one-character strings, all of the same length (the length filter of
    the lookup loop guarantees it).  From an empty list [np.array] makes a
    one-dimensional array of shape [(0,)]; otherwise a two-dimensional array
    of shape [(len(rows), ncols)]. *)
Inductive ndarray : Type :=
| Empty1D
| Arr2D (ncols : nat) (rows : list row).

(** [np.array(rows)] *)
Definition array (rows : list row) : ndarray :=
  match rows with
  | [] => Empty1D
  | r :: _ => Arr2D (length r) rows
  end.

(** [a.tolist()], also the rows visited by [for l in a]. *)
Definition tolist (a : ndarray) : list row :=
  match a with
  | Empty1D => []
  | Arr2D _ rows => rows
  end.

(** [len(a)] *)
Definition len (a : ndarray) : nat := length (tolist a).

(** Rows are compared field by field, characters by code point. *)
Fixpoint row_compare (r1 r2 : row) : comparison :=
  match r1, r2 with
  | [], [] => Eq
  | [], _ :: _ => Lt
  | _ :: _, [] => Gt
  | c1 :: r1', c2 :: r2' =>
      match Ascii.compare c1 c2 with
      | Eq => row_compare r1' r2'
      | o => o
      end
  end.

Fixpoint insert_row (r : row) (rows : list row) : list row :=
  match rows with
  | [] => [r]
  | r' :: rest =>
      match row_compare r r' with
      | Lt => r :: r' :: rest
      | Eq => r' :: rest
      | Gt => r' :: insert_row r rest
      end
  end.

(** [np.unique(a, axis=0)]: the distinct rows of [a], sorted. *)
Definition unique (a : ndarray) : ndarray :=
  match a with
  | Empty1D => Empty1D
  | Arr2D n rows => Arr2D n (foldr insert_row [] rows)
  end.

(** An index [j] along an axis of size [n]: negative indices count from the
    end, anything outside [-n <= j < n] raises [IndexError]. *)
Definition index (n : nat) (j : Z) : result nat :=
  if decide (0 <= j < Z.of_nat n)%Z then Ok (Z.to_nat j)
  else if decide (- Z.of_nat n <= j < 0)%Z then Ok (Z.to_nat (Z.of_nat n + j))
  else Raise IndexError.

(** [a[:, j] == c]: the boolean mask of the rows whose column [j] is [c].
    A one-dimensional array has no second axis. *)
Definition col_eq (a : ndarray) (j : Z) (c : ascii) : result (list bool) :=
  match a with
  | Empty1D => Raise IndexError
  | Arr2D n rows =>
      i ← index n j; Ok (map (fun r : row => bool_decide (r !! i = Some c)) rows)
  end.

Fixpoint argwhere_from (k : nat) (mask : list bool) : list nat :=
  match mask with
  | [] => []
  | b :: mask' =>
      if b then k :: argwhere_from (S k) mask' else argwhere_from (S k) mask'
  end.

(** [np.argwhere(mask).reshape(1, -1)[0]]: the indices where [mask] holds. *)
Definition argwhere (mask : list bool) : list nat := argwhere_from 0 mask.

(** [a[idx]] for an array [idx] of non-negative row indices. *)
Definition take (a : ndarray) (idx : list nat) : result ndarray :=
  match a with
  | Empty1D =>
      match idx with
      | [] => Ok Empty1D
      | _ :: _ => Raise IndexError
      end
  | Arr2D n rows =>
      rows' ← Py.mapM (fun i => match rows !! i with
                                | Some r => Ok r
                                | None => Raise IndexError
                                end) idx;
      Ok (Arr2D n rows')
  end.

(** [a[np.argwhere(a[:, j] == c).reshape(1, -1)[0]]] *)
Definition where_col_eq (a : ndarray) (j : Z) (c : ascii) : result ndarray :=
  mask ← col_eq a j c; take a (argwhere mask).

End np.

(** ** The notebook [FindCandidateWords.ipynb], cell by cell *)

Module Notebook.

(** What the last cell prints: the message of its first branch, or the
    words of [list_candidate_words], one per line. *)
Inductive stdout : Type :=
| Message (text : string)
| Lines (words : list string).

(** The text written for an output. *)
Definition text_of (out : stdout) : string :=
  match out with
  | Message text => text
  | Lines words => Py.join (String "010" "") words
  end.

Section cells.

(** Cell 3: the parameters filled in by the user. *)
Variable word_length : nat.
Variable known_letters_loc : list (ascii * Z).
Variable avail_letters_in : list ascii.

(** The word service behind [requests.get(api_url + p)] followed by
    [json.loads]: the [word] fields of the answer to pattern [p], or an
    exception. *)
Variable lookup : string -> result (list string).

(** Cell 4 *)
Definition fixed_letters : list (ascii * Z) :=
  Py.sorted (filter (fun l : ascii * Z => (0 <= l.2)%Z) known_letters_loc) snd.

(** Cell 5: a dict comprehension, a later pair overwrites an earlier one
    with the same key. *)
Definition dict_letters : gmap Z ascii :=
  foldl (fun (d : gmap Z ascii) (x : ascii * Z) => <[x.2 := x.1]> d) ∅ fixed_letters.

(** Cell 6 *)
Definition known_pattern : list ascii :=
  map (fun i : nat =>
         match dict_letters !! Z.of_nat i with
         | Some c => c
         | None => "?"%char
         end)
      (Py.range word_length).

(** Cell 7 *)
Definition unknown_pos : list nat :=
  filter (fun i : nat => dict_letters !! Z.of_nat i = None) (Py.range word_length).

(** Cell 8 *)
Definition unknown_letters : list ascii :=
  map fst (Py.sorted (filter (fun l : ascii * Z => (l.2 < 0)%Z) known_letters_loc) snd).

(** Cell 9 *)
Definition unknown_combos : list (list nat) :=
  itertools.combinations unknown_pos (length unknown_letters).

(** Cell 10 *)
Definition perms_unknown_combos : list (list (list nat)) :=
  map itertools.permutations unknown_combos.

(** Cell 11, the body of the two loops: a copy of [known_pattern] in which
    the letters of [unknown_letters] are written at the positions of
    [perm], pair by pair of [zip(perm, unknown_letters)]. *)
Definition tmp_pattern (perm : list nat) : result (list ascii) :=
  Py.foldlM (fun (pat : list ascii) (x : nat * ascii) => Py.setitem pat x.1 x.2)
            known_pattern (zip perm unknown_letters).

(** Cell 11: the loops visit [perms_unknown_combos[c][p]] for [c] and then
    [p] in increasing order. *)
Definition known_patterns : result (list string) :=
  Py.mapM (fun perm => Py.join_chars <$> tmp_pattern perm)
          (concat perms_unknown_combos).

(** Cell 12 *)
Definition known_letters : list ascii := map fst known_letters_loc.

(** Cell 13: [avail_letters.extend(known_letters)] *)
Definition avail_letters : list ascii := avail_letters_in ++ known_letters.

(** Cell 14: the words of the right length in one answer. *)
Definition good_words (words : list string) : list string :=
  filter (fun w : string => String.length w = word_length) words.

(** Cell 14: the loop over the patterns. *)
Fixpoint lookup_loop (patterns : list string) (candidate_words : list string)
  : result (list string) :=
  match patterns with
  | [] => Ok candidate_words
  | p :: patterns' =>
      words ← lookup p;
      if decide (0 < length (good_words words))
      then lookup_loop patterns' (candidate_words ++ good_words words)
      else lookup_loop patterns' candidate_words
  end.

Definition candidate_words : result (list string) :=
  patterns ← known_patterns; lookup_loop patterns [].

(** Cell 15 *)
Definition candidate_arr (candidate_words : list string) : np.ndarray :=
  np.unique (np.array (map Py.chars candidate_words)).

(** Cell 16 *)
Definition filtered_candidate_arr (candidate_words : list string) : np.ndarray :=
  np.array
    (filter (fun x : np.row =>
               size ((list_to_set x : gset ascii) ∖ list_to_set avail_letters) = 0)
            (np.tolist (candidate_arr candidate_words))).

(** Cell 17, the loop of the second branch. *)
Definition fixed_loop (a : np.ndarray) : result np.ndarray :=
  Py.foldlM (fun (a : np.ndarray) (f : ascii * Z) => np.where_col_eq a f.2 f.1)
            a fixed_letters.

(** Cell 17: what is printed, and the value of [filtered_candidate_arr]
    when the cell ends.  [list_candidate_words] is assigned before the
    loop and printed after it. *)
Definition last_cell (candidate_words : list string) : result (stdout * np.ndarray) :=
  let a := filtered_candidate_arr candidate_words in
  if decide (np.len a < 1) then
    Ok (Message ("No words found containing the letters "
                   +:+ Py.join ", " (map Py.str avail_letters)), a)
  else
    let list_candidate_words := map Py.join_chars (np.tolist a) in
    a' ← fixed_loop a;
    Ok (Lines list_candidate_words, a').

(** The whole notebook: the output of the last cell. *)
Definition run : result stdout :=
  cw ← candidate_words; fst <$> last_cell cw.

(** The candidate filter (cells 15 to 17) as a function of the aggregated
    words: the rows left in [filtered_candidate_arr] when the run ends. *)
Definition candidate_filter (candidate_words : list string) : result (list np.row) :=
  (fun r : stdout * np.ndarray => np.tolist r.2) <$> last_cell candidate_words.

End cells.

End Notebook.

(** ** The earlier draft of the notebook

    The second notebook of the repository queries the service with the
    permutations of all the known letters separated by [*], has no list of
    available letters, and filters on the fixed positions before it joins the
    rows into words.  Its cells 4 (fixed letters), 8 (lookup loop) and 10 (the
    filter loop) have the text of the corresponding cells of the notebook
    above and reuse their definitions. *)

Module Draft.

Section cells.

Variable word_length : nat.
Variable known_letters_loc : list (ascii * Z).
Variable lookup : string -> result (list string).

(** Cell 4 *)
Definition fixed_letters : list (ascii * Z) :=
  Notebook.fixed_letters known_letters_loc.

(** Cell 5 *)
Definition known_letters : list ascii := map fst known_letters_loc.

(** Cell 6 *)
Definition known_combos : list (list ascii) :=
  itertools.permutations known_letters.

(** Cell 7 *)
Definition known_patterns : list string :=
  map (fun c : list ascii => "*" +:+ Py.join "*" (map Py.str c) +:+ "*") known_combos.

(** Cell 8 *)
Definition candidate_words : result (list string) :=
  Notebook.lookup_loop word_length lookup known_patterns [].

(** Cell 9 *)
Definition candidate_arr (candidate_words : list string) : np.ndarray :=
  np.unique (np.array (map Py.chars candidate_words)).

(** Cell 10: the filter loop runs first, the rows that are left are then
    joined into [list_candidate_words] and printed. *)
Definition list_candidate_words (candidate_words : list string)
  : result (list string) :=
  a ← Notebook.fixed_loop known_letters_loc (candidate_arr candidate_words);
  Ok (map Py.join_chars (np.tolist a)).

Definition run : result (list string) :=
  cw ← candidate_words; list_candidate_words cw.

End cells.

End Draft.

(** ** Vocabulary of the specification *)

Module Spec.

(** Every fixed constraint has its position inside the word. *)
Definition positions_in_range (word_length : nat) (known : list (ascii * Z)) : Prop :=
  forall (c : ascii) (p : Z), (c, p) ∈ known -> (0 <= p)%Z -> (p < Z.of_nat word_length)%Z.

(** No two fixed constraints give different letters to one position. *)
Definition no_conflict (known : list (ascii * Z)) : Prop :=
  forall (c1 c2 : ascii) (p : Z),
    (c1, p) ∈ known -> (c2, p) ∈ known -> (0 <= p)%Z -> c1 = c2.

(** Position [i] is claimed by no fixed constraint. *)
Definition open_position (known : list (ascii * Z)) (i : nat) : Prop :=
  forall c : ascii, (c, Z.of_nat i) ∉ known.

(** The input has two fixed constraints on one position with different
    letters. *)
Definition conflicting (known : list (ascii * Z)) : Prop :=
  exists (c1 c2 : ascii) (p : Z),
    (c1, p) ∈ known /\ (c2, p) ∈ known /\ (0 <= p)%Z /\ c1 <> c2.

(** The input has a fixed constraint past the end of the word. *)
Definition out_of_range (word_length : nat) (known : list (ascii * Z)) : Prop :=
  exists (c : ascii) (p : Z), (c, p) ∈ known /\ (Z.of_nat word_length <= p)%Z.

(** The number of ways to choose [k] out of [n], by Pascal's rule. *)
Fixpoint binomial (n k : nat) : nat :=
  match k with
  | 0 => 1
  | S k' =>
      match n with
      | 0 => 0
      | S n' => binomial n' k' + binomial n' k
      end
  end.

(** Case normalisation of one character: [A]..[Z] to [a]..[z]. *)
Definition lowercase (c : ascii) : ascii :=
  let n := nat_of_ascii c in
  if decide (65 <= n <= 90) then ascii_of_nat (n + 32) else c.

(** Strict order of two printed words, characters by code point. *)
Definition word_lt (w1 w2 : string) : Prop :=
  np.row_compare (Py.chars w1) (Py.chars w2) = Lt.

(** Constraints in increasing order of position. *)
Definition by_position (x y : ascii * Z) : Prop := (x.2 <= y.2)%Z.

(** Strict order of two rows. *)
Definition row_lt (r1 r2 : np.row) : Prop := np.row_compare r1 r2 = Lt.

End Spec.

(** The constraint parser of the specification is made of cells 4, 8, 12 and
    13: it returns the fixed constraints, the floating letters and the
    augmented list of allowed letters.  None of these cells can raise. *)
Definition constraint_parser (word_length : nat) (known_letters_loc : list (ascii * Z))
    (avail_letters_in : list ascii)
  : result (list (ascii * Z) * list ascii * list ascii) :=
  Ok (Notebook.fixed_letters known_letters_loc,
      Notebook.unknown_letters known_letters_loc,
      Notebook.avail_letters known_letters_loc avail_letters_in).

(** ** Inputs used in the examples *)

Module Examples.

(** The parameters of cell 3 of the notebook. *)
Definition known_letters_loc : list (ascii * Z) :=
  [("e"%char, 1%Z); ("d"%char, 4%Z); ("i"%char, (-1)%Z); ("t"%char, (-1)%Z)].

Definition avail_letters : list ascii :=
  ["q"; "w"; "f"; "h"; "j"; "k"; "z"; "x"; "c"; "v"; "b"]%char.

(** The answers of the service shown in cell 14 of the notebook. *)
Definition lookup (p : string) : result (list string) :=
  if decide (p = "tei?d") then Ok ["teiid"; "teind"]
  else if decide (p = "te?id") then Ok ["tepid"; "teiid"]
  else if decide (p = "?etid") then Ok ["fetid"; "betid"; "netid"]
  else Ok [].

(** The aggregated words of cell 14 for these answers. *)
Definition candidate_words : list string :=
  ["teiid"; "teind"; "tepid"; "teiid"; "fetid"; "betid"; "netid"].

(** A service whose answer to [?etid] contains a word that does not have
    the fixed letters in place. *)
Definition lookup_stray (p : string) : result (list string) :=
  if decide (p = "?etid") then Ok ["fetid"; "bidet"] else Ok [].

(** A service whose only answer is such a word. *)
Definition lookup_bidet (p : string) : result (list string) :=
  if decide (p = "?etid") then Ok ["bidet"] else Ok [].

(** Two fixed constraints on position 1 with different letters. *)
Definition conflicting_letters_loc : list (ascii * Z) :=
  [("a"%char, 1%Z); ("b"%char, 1%Z)].

(** A service that answers the pattern [?b???] with a word that matches it. *)
Definition lookup_abbey (p : string) : result (list string) :=
  if decide (p = "?b???") then Ok ["abbey"] else Ok [].

(** The parameters of cell 3 of the draft, and the aggregated words printed
    by its cell 8. *)
Definition draft_known_letters_loc : list (ascii * Z) :=
  [("a"%char, (-1)%Z); ("i"%char, 1%Z); ("c"%char, 4%Z); ("l"%char, (-1)%Z)].

Definition draft_candidate_words : list string :=
  ["calic"; "alice"; "lilac"; "iliac"; "ileac"; "cavil"; "cilia"; "claim"; "clair";
   "cilia"; "lilac"; "iliac"; "linac"; "lucia"].

(** A fixed constraint past the end of a five-letter word. *)
Definition out_of_range_letters_loc : list (ascii * Z) := [("a"%char, 7%Z)].

End Examples.

(** ** Auxiliary definitions *)

(** The list that the loop body of cell 11 builds for [perm] when none of its
    assignments is out of range. *)
Definition written (word_length : nat) (known_letters_loc : list (ascii * Z))
    (perm : list nat) : list ascii :=
  foldl (fun (pat : list ascii) (x : nat * ascii) => <[x.1 := x.2]> pat)
        (Notebook.known_pattern word_length known_letters_loc)
        (zip perm (Notebook.unknown_letters known_letters_loc)).

(** The test of cell 16 on one row. *)
Definition allowed (known_letters_loc : list (ascii * Z)) (avail_letters_in : list ascii)
    (x : np.row) : Prop :=
  size ((list_to_set x : gset ascii)
          ∖ list_to_set (Notebook.avail_letters known_letters_loc avail_letters_in)) = 0.

#[global] Instance allowed_dec (known_letters_loc : list (ascii * Z))
    (avail_letters_in : list ascii) (x : np.row) :
  Decision (allowed known_letters_loc avail_letters_in x).
Proof. unfold allowed. apply _. Defined.

(** The rows kept by one round of the loop of cell 17 when the column index
    is in range. *)
Definition keep (rows : list np.row) (f : ascii * Z) : list np.row :=
  filter (fun r : np.row => r !! Z.to_nat f.2 = Some f.1) rows.

(** The text printed by the first branch of cell 17. *)
Definition no_words_message (known_letters_loc : list (ascii * Z))
    (avail_letters_in : list ascii) : string :=
  "No words found containing the letters "
    +:+ Py.join ", " (map Py.str (Notebook.avail_letters known_letters_loc avail_letters_in)).

(** The words that an output of the last cell lists. *)
Definition printed_words (out : Notebook.stdout) : list string :=
  match out with
  | Notebook.Message _ => []
  | Notebook.Lines words => words
  end.

(** * Properties *)

(** ** The outputs recorded in the notebooks

    The embedding evaluates to the outputs that the notebooks store under
    their cells. *)

Example recorded_dict_letters :
  Notebook.dict_letters Examples.known_letters_loc
  = <[1%Z := "e"%char]> (<[4%Z := "d"%char]> ∅).
Proof. vm_compute. reflexivity. Qed.

Example recorded_known_pattern :
  Notebook.known_pattern 5 Examples.known_letters_loc = ["?"; "e"; "?"; "?"; "d"]%char /\
  Notebook.unknown_pos 5 Examples.known_letters_loc = [0; 2; 3].
Proof. split; vm_compute; reflexivity. Qed.

Example recorded_avail_letters :
  Notebook.avail_letters Examples.known_letters_loc Examples.avail_letters
  = ["q"; "w"; "f"; "h"; "j"; "k"; "z"; "x"; "c"; "v"; "b"; "e"; "d"; "i"; "t"]%char.
Proof. reflexivity. Qed.

Example recorded_candidate_words :
  Notebook.candidate_words 5 Examples.known_letters_loc Examples.lookup
  = Ok Examples.candidate_words.
Proof. vm_compute. reflexivity. Qed.

Example recorded_candidate_arr :
  Notebook.candidate_arr Examples.candidate_words
  = np.Arr2D 5 (map Py.chars ["betid"; "fetid"; "netid"; "teiid"; "teind"; "tepid"]) /\
  Notebook.filtered_candidate_arr Examples.known_letters_loc Examples.avail_letters
    Examples.candidate_words
  = np.Arr2D 5 (map Py.chars ["betid"; "fetid"; "teiid"]).
Proof. split; vm_compute; reflexivity. Qed.

Example recorded_run :
  Notebook.run 5 Examples.known_letters_loc Examples.avail_letters Examples.lookup
  = Ok (Notebook.Lines ["betid"; "fetid"; "teiid"]).
Proof. vm_compute. reflexivity. Qed.

Example recorded_draft_known_combos :
  map Py.join_chars (Draft.known_combos Examples.draft_known_letters_loc)
  = ["aicl"; "ailc"; "acil"; "acli"; "alic"; "alci";
     "iacl"; "ialc"; "ical"; "icla"; "ilac"; "ilca";
     "cail"; "cali"; "cial"; "cila"; "clai"; "clia";
     "laic"; "laci"; "liac"; "lica"; "lcai"; "lcia"].
Proof. vm_compute. reflexivity. Qed.

Example recorded_draft_known_patterns :
  take 3 (Draft.known_patterns Examples.draft_known_letters_loc)
  = ["*a*i*c*l*"; "*a*i*l*c*"; "*a*c*i*l*"] /\
  length (Draft.known_patterns Examples.draft_known_letters_loc) = 24.
Proof. split; vm_compute; reflexivity. Qed.

Example recorded_draft_candidate_arr :
  Draft.candidate_arr Examples.draft_candidate_words
  = np.Arr2D 5 (map Py.chars ["alice"; "calic"; "cavil"; "cilia"; "claim"; "clair";
                              "ileac"; "iliac"; "lilac"; "linac"; "lucia"]).
Proof. vm_compute. reflexivity. Qed.

Example recorded_draft_list_candidate_words :
  Draft.list_candidate_words Examples.draft_known_letters_loc Examples.draft_candidate_words
  = Ok ["lilac"; "linac"].
Proof. vm_compute. reflexivity. Qed.

(** ** Facts about the Python built-ins *)

Section py_facts.

Context {A : Type}.

Lemma insert_by_perm (key : A -> Z) (x : A) (l : list A) :
  Py.insert_by key x l ≡ₚ x :: l.
Proof.
  induction l as [|y l IH]; simpl; [done|].
  case_decide; [done|].
  rewrite IH. apply Permutation_swap.
Qed.

Lemma sorted_perm (l : list A) (key : A -> Z) : Py.sorted l key ≡ₚ l.
Proof.
  unfold Py.sorted.
  induction l as [|x l IH]; simpl; [done|].
  by rewrite insert_by_perm, IH.
Qed.

Lemma elem_of_sorted (l : list A) (key : A -> Z) (x : A) :
  x ∈ Py.sorted l key <-> x ∈ l.
Proof. by rewrite sorted_perm. Qed.

Lemma StronglySorted_insert_by (key : A -> Z) (x : A) (l : list A) :
  StronglySorted (fun a b => (key a <= key b)%Z) l ->
  StronglySorted (fun a b => (key a <= key b)%Z) (Py.insert_by key x l).
Proof.
  induction 1 as [|y l Hs IH Hall]; simpl; [repeat constructor|].
  case_decide.
  - constructor; [by constructor|]. constructor; [done|].
    eapply Forall_impl; [done|]. simpl. lia.
  - constructor; [done|].
    apply Forall_forall. intros z Hz. rewrite insert_by_perm in Hz.
    apply elem_of_cons in Hz as [->|Hz]; [lia|]. by eapply Forall_forall in Hall.
Qed.

Lemma StronglySorted_sorted_by (l : list A) (key : A -> Z) :
  StronglySorted (fun a b => (key a <= key b)%Z) (Py.sorted l key).
Proof.
  unfold Py.sorted. induction l as [|x l IH]; simpl; [constructor|].
  by apply StronglySorted_insert_by.
Qed.

Lemma length_sorted (l : list A) (key : A -> Z) :
  length (Py.sorted l key) = length l.
Proof. by rewrite sorted_perm. Qed.

Lemma map_elem_of {B : Type} (f : A -> B) (l : list A) (y : B) :
  y ∈ map f l <-> exists x, y = f x /\ x ∈ l.
Proof.
  rewrite list_elem_of_In, in_map_iff.
  split; intros (x & H1 & H2); exists x; by rewrite list_elem_of_In in *.
Qed.

Lemma mapM_ok {B : Type} (f : A -> result B) (g : A -> B) (l : list A) :
  (forall x, x ∈ l -> f x = Ok (g x)) -> Py.mapM f l = Ok (map g l).
Proof.
  induction l as [|x l IH]; intros Hf; simpl; [done|].
  rewrite (Hf x) by left. simpl.
  rewrite IH; [done|]. intros y Hy. apply Hf. by right.
Qed.

Lemma foldlM_ok {B : Type} (f : A -> B -> result A) (g : A -> B -> A)
    (P : A -> Prop) (l : list B) (acc : A) :
  (forall a x, P a -> x ∈ l -> f a x = Ok (g a x) /\ P (g a x)) ->
  P acc ->
  Py.foldlM f acc l = Ok (foldl g acc l) /\ P (foldl g acc l).
Proof.
  revert acc.
  induction l as [|x l IH]; intros acc Hf Hacc; simpl; [done|].
  destruct (Hf acc x Hacc) as [-> HP]; [left|]. simpl.
  apply IH; [|done]. intros a y Ha Hy. apply Hf; [done|by right].
Qed.

Lemma length_concat_uniform (m : nat) (ls : list (list A)) :
  (forall l, l ∈ ls -> length l = m) -> length (concat ls) = length ls * m.
Proof.
  induction ls as [|l ls IH]; intros H; simpl; [done|].
  rewrite length_app, (H l) by left.
  rewrite IH; [done|]. intros l' Hl'. apply H. by right.
Qed.

Lemma concat_elem_of (ls : list (list A)) (x : A) :
  x ∈ concat ls <-> exists l, l ∈ ls /\ x ∈ l.
Proof.
  rewrite list_elem_of_In, in_concat.
  split; intros (l & H1 & H2); exists l; by rewrite !list_elem_of_In in *.
Qed.

End py_facts.

(** ** Facts about [itertools] *)

Section itertools_facts.

Context {A : Type}.
Implicit Types (l c p : list A).

Lemma length_combinations l r :
  length (itertools.combinations l r) = Spec.binomial (length l) r.
Proof.
  revert r. induction l as [|x l IH]; intros [|r]; simpl; try done.
  by rewrite length_app, length_map, !IH.
Qed.

Lemma combinations_sublist l r c :
  c ∈ itertools.combinations l r -> c `sublist_of` l /\ length c = r.
Proof.
  revert r c. induction l as [|x l IH]; intros [|r] c; simpl.
  - intros ->%list_elem_of_singleton. split; [constructor|done].
  - by intros ?%elem_of_nil.
  - intros ->%list_elem_of_singleton. split; [apply sublist_nil_l|done].
  - rewrite elem_of_app, map_elem_of. intros [(c' & -> & Hc')|Hc].
    + destruct (IH _ _ Hc') as [? ?]. split; [by constructor|simpl; lia].
    + destruct (IH _ _ Hc) as [? ?]. split; [by constructor|done].
Qed.

Lemma length_selects l : length (itertools.selects l) = length l.
Proof. induction l as [|x l IH]; simpl; [done|]. by rewrite length_map, IH. Qed.

Lemma selects_perm l x rest :
  (x, rest) ∈ itertools.selects l -> x :: rest ≡ₚ l.
Proof.
  revert x rest. induction l as [|y l IH]; intros x rest; simpl.
  - by intros ?%elem_of_nil.
  - rewrite elem_of_cons, map_elem_of. intros [[= -> ->]|([z rest'] & [= -> ->] & Hs)].
    + done.
    + simpl. rewrite Permutation_swap. by rewrite (IH _ _ Hs).
Qed.

Lemma length_flat_map_uniform {B : Type} (f : B -> list (list A)) (m : nat) (l : list B) :
  (forall x, x ∈ l -> length (f x) = m) -> length (flat_map f l) = length l * m.
Proof.
  induction l as [|x l IH]; intros H; simpl; [done|].
  rewrite length_app, (H x) by left.
  rewrite IH; [done|]. intros y Hy. apply H. by right.
Qed.

Lemma length_permutations_of_length n l :
  length l = n -> length (itertools.permutations_of_length n l) = fact n.
Proof.
  revert l. induction n as [|n IH]; intros l Hl; simpl; [done|].
  rewrite (length_flat_map_uniform _ (fact n)).
  - rewrite length_selects, Hl. simpl. lia.
  - intros [x rest] Hs. rewrite length_map. apply IH.
    apply selects_perm, Permutation_length in Hs. simpl in *. lia.
Qed.

Lemma length_permutations l :
  length (itertools.permutations l) = fact (length l).
Proof. by apply length_permutations_of_length. Qed.

Lemma permutations_of_length_perm n l p :
  length l = n -> p ∈ itertools.permutations_of_length n l -> p ≡ₚ l.
Proof.
  revert l p. induction n as [|n IH]; intros l p Hl; simpl.
  - intros ->%list_elem_of_singleton. by destruct l.
  - rewrite list_elem_of_In, in_flat_map.
    intros ([x rest] & Hs%list_elem_of_In & Hp%list_elem_of_In).
    apply map_elem_of in Hp as (p' & -> & Hp').
    pose proof (selects_perm _ _ _ Hs) as Hperm.
    rewrite <- Hperm. constructor. apply IH; [|done].
    apply Permutation_length in Hperm. simpl in *. lia.
Qed.

Lemma permutations_perm l p : p ∈ itertools.permutations l -> p ≡ₚ l.
Proof. by apply permutations_of_length_perm. Qed.

End itertools_facts.

Lemma binomial_gt (n k : nat) : n < k -> Spec.binomial n k = 0.
Proof.
  revert k. induction n as [|n IH]; intros [|k] H; simpl; try lia.
  rewrite !IH by lia. done.
Qed.

Lemma binomial_diag (n : nat) : Spec.binomial n n = 1.
Proof. induction n as [|n IH]; simpl; [done|]. rewrite IH, binomial_gt by lia. done. Qed.

(** Pascal's rule gives the usual quotient of factorials. *)
Lemma binomial_fact (n k : nat) :
  k <= n -> Spec.binomial n k * fact k * fact (n - k) = fact n.
Proof.
  revert k. induction n as [|n IH]; intros [|k] H; simpl Spec.binomial.
  - done.
  - lia.
  - rewrite Nat.sub_0_r. simpl. lia.
  - destruct (decide (k = n)) as [->|Hne].
    + rewrite binomial_diag, binomial_gt, Nat.sub_diag by lia. simpl. lia.
    + pose proof (IH k ltac:(lia)) as H1.
      pose proof (IH (S k) ltac:(lia)) as H2.
      replace (S n - S k) with (n - k) by lia.
      replace (n - k) with (S (n - S k)) in * by lia.
      change (fact (S (n - S k))) with (S (n - S k) * fact (n - S k)) in *.
      change (fact (S k)) with (S k * fact k) in *.
      change (fact (S n)) with (S n * fact n).
      nia.
Qed.

(** ** Facts about the constraint cells *)

Lemma map_fmap {A B : Type} (f : A -> B) (l : list A) : map f l = f <$> l.
Proof. induction l as [|x l IH]; simpl; [done|]. by rewrite IH. Qed.

Lemma StronglySorted_sorted (l : list (ascii * Z)) :
  StronglySorted Spec.by_position (Py.sorted l snd).
Proof. apply (StronglySorted_sorted_by l snd). Qed.

Section constraint_facts.

Variable word_length : nat.
Variable known : list (ascii * Z).

Let put (d : gmap Z ascii) (x : ascii * Z) : gmap Z ascii := <[x.2 := x.1]> d.

Lemma elem_of_fixed_letters (c : ascii) (p : Z) :
  (c, p) ∈ Notebook.fixed_letters known <-> (c, p) ∈ known /\ (0 <= p)%Z.
Proof.
  unfold Notebook.fixed_letters.
  rewrite elem_of_sorted, list_elem_of_filter. simpl. tauto.
Qed.

Lemma foldl_put_Some (l : list (ascii * Z)) (d : gmap Z ascii) (p : Z) (c : ascii) :
  foldl put d l !! p = Some c -> (c, p) ∈ l \/ d !! p = Some c.
Proof.
  revert d. induction l as [|[c' p'] l IH]; intros d; simpl; [by right|].
  intros [H|H]%IH; [left; by right|].
  unfold put in H. simpl in H.
  destruct (decide (p' = p)) as [->|Hne].
  - rewrite lookup_insert_eq in H. injection H as ->. left. by left.
  - rewrite lookup_insert_ne in H by done. by right.
Qed.

Lemma foldl_put_is_Some (l : list (ascii * Z)) (d : gmap Z ascii) (p : Z) :
  is_Some (d !! p) \/ (exists c, (c, p) ∈ l) -> is_Some (foldl put d l !! p).
Proof.
  revert d. induction l as [|[c' p'] l IH]; intros d; simpl.
  - intros [H|[c H]]; [done|]. by apply elem_of_nil in H.
  - intros H. apply IH. unfold put. simpl.
    destruct (decide (p' = p)) as [->|Hne].
    + left. rewrite lookup_insert_eq. by eexists.
    + rewrite lookup_insert_ne by done.
      destruct H as [H|[c [H|H]%elem_of_cons]]; [by left|congruence|right; by exists c].
Qed.

Lemma dict_letters_Some (p : Z) (c : ascii) :
  Notebook.dict_letters known !! p = Some c -> (c, p) ∈ known /\ (0 <= p)%Z.
Proof.
  unfold Notebook.dict_letters. intros [H|H]%foldl_put_Some.
  - by apply elem_of_fixed_letters.
  - by rewrite lookup_empty in H.
Qed.

Lemma dict_letters_is_Some (p : Z) (c : ascii) :
  (c, p) ∈ known -> (0 <= p)%Z -> is_Some (Notebook.dict_letters known !! p).
Proof.
  intros Hin Hp. apply foldl_put_is_Some. right. exists c.
  by apply elem_of_fixed_letters.
Qed.

Lemma dict_letters_None (i : nat) :
  Notebook.dict_letters known !! Z.of_nat i = None <-> Spec.open_position known i.
Proof.
  split.
  - intros Hnone c Hin.
    destruct (dict_letters_is_Some (Z.of_nat i) c Hin) as [c' Hc']; [lia|congruence].
  - intros Hopen.
    destruct (Notebook.dict_letters known !! Z.of_nat i) as [c|] eqn:E; [|done].
    apply dict_letters_Some in E as [E _]. by apply Hopen in E.
Qed.

Lemma dict_letters_fixed (p : Z) (c : ascii) :
  Spec.no_conflict known -> (c, p) ∈ known -> (0 <= p)%Z ->
  Notebook.dict_letters known !! p = Some c.
Proof.
  intros Hnc Hin Hp.
  destruct (dict_letters_is_Some p c Hin Hp) as [c' Hc'].
  rewrite Hc'. f_equal.
  apply dict_letters_Some in Hc' as [Hc' _]. by apply (Hnc c' c p).
Qed.

Lemma length_known_pattern :
  length (Notebook.known_pattern word_length known) = word_length.
Proof. unfold Notebook.known_pattern, Py.range. by rewrite length_map, length_seq. Qed.

Lemma lookup_known_pattern (i : nat) :
  i < word_length ->
  Notebook.known_pattern word_length known !! i =
    Some (match Notebook.dict_letters known !! Z.of_nat i with
          | Some c => c
          | None => "?"%char
          end).
Proof.
  intros Hi. unfold Notebook.known_pattern, Py.range.
  rewrite map_fmap, list_lookup_fmap.
  by rewrite (proj2 (lookup_seq 0 word_length i i)).
Qed.

Lemma elem_of_unknown_pos (i : nat) :
  i ∈ Notebook.unknown_pos word_length known <->
  i < word_length /\ Spec.open_position known i.
Proof.
  unfold Notebook.unknown_pos, Py.range.
  rewrite list_elem_of_filter, elem_of_seq, dict_letters_None. simpl. intuition lia.
Qed.

Lemma NoDup_unknown_pos : NoDup (Notebook.unknown_pos word_length known).
Proof. apply NoDup_filter, NoDup_seq. Qed.

(** The permutations visited by the loops of cell 11 are arrangements of
    [len(unknown_letters)] distinct open positions. *)
Lemma perms_unknown_combos_spec (perm : list nat) :
  perm ∈ concat (Notebook.perms_unknown_combos word_length known) ->
  length perm = length (Notebook.unknown_letters known) /\
  NoDup perm /\
  (forall i, i ∈ perm -> i < word_length /\ Spec.open_position known i).
Proof.
  unfold Notebook.perms_unknown_combos, Notebook.unknown_combos.
  intros (perms & (combo & -> & Hcombo)%map_elem_of & Hperm)%concat_elem_of.
  apply permutations_perm in Hperm.
  apply combinations_sublist in Hcombo as [Hsub Hlen].
  split; [by rewrite Hperm|].
  split.
  - rewrite Hperm. eapply sublist_NoDup; [apply NoDup_unknown_pos|done].
  - intros i Hi. rewrite Hperm in Hi.
    apply elem_of_unknown_pos. by eapply elem_of_sublist.
Qed.

Lemma length_perms_unknown_combos :
  length (concat (Notebook.perms_unknown_combos word_length known)) =
  Spec.binomial (length (Notebook.unknown_pos word_length known))
                (length (Notebook.unknown_letters known))
  * fact (length (Notebook.unknown_letters known)).
Proof.
  rewrite (length_concat_uniform (fact (length (Notebook.unknown_letters known)))).
  - unfold Notebook.perms_unknown_combos, Notebook.unknown_combos.
    by rewrite length_map, length_combinations.
  - unfold Notebook.perms_unknown_combos, Notebook.unknown_combos.
    intros perms (combo & -> & Hcombo)%map_elem_of.
    rewrite length_permutations.
    by apply combinations_sublist in Hcombo as [_ ->].
Qed.

End constraint_facts.

(** ** Facts about the pattern cell *)

Section pattern_facts.

Let write (pat : list ascii) (x : nat * ascii) : list ascii := <[x.1 := x.2]> pat.

Lemma length_foldl_write (xs : list (nat * ascii)) (pat : list ascii) :
  length (foldl write pat xs) = length pat.
Proof.
  revert pat. induction xs as [|x xs IH]; intros pat; simpl; [done|].
  rewrite IH. unfold write. by rewrite length_insert.
Qed.

Lemma foldl_write_other (xs : list (nat * ascii)) (pat : list ascii) (i : nat) :
  i ∉ xs.*1 -> foldl write pat xs !! i = pat !! i.
Proof.
  revert pat. induction xs as [|[i' c'] xs IH]; intros pat; simpl; [done|].
  rewrite not_elem_of_cons. intros [Hne Hnotin].
  rewrite IH by done. unfold write. simpl. by rewrite list_lookup_insert_ne.
Qed.

Lemma foldl_write_at (xs : list (nat * ascii)) (pat : list ascii)
    (j i : nat) (c : ascii) :
  NoDup xs.*1 -> xs !! j = Some (i, c) -> i < length pat ->
  foldl write pat xs !! i = Some c.
Proof.
  revert pat j. induction xs as [|[i' c'] xs IH]; intros pat j; simpl; [done|].
  rewrite NoDup_cons. intros [Hnotin Hnd] Hj Hi.
  destruct j as [|j]; simpl in Hj.
  - injection Hj as -> ->.
    rewrite foldl_write_other by done.
    unfold write. simpl. by rewrite list_lookup_insert_eq.
  - apply (IH _ j); [done|done|]. unfold write. by rewrite length_insert.
Qed.

Lemma get_join_chars (l : list ascii) (i : nat) :
  String.get i (Py.join_chars l) = l !! i.
Proof.
  revert i. induction l as [|c l IH]; intros [|i]; simpl; done.
Qed.

Lemma length_join_chars (l : list ascii) :
  String.length (Py.join_chars l) = length l.
Proof. induction l as [|c l IH]; simpl; [done|]. by rewrite IH. Qed.

Variable word_length : nat.
Variable known : list (ascii * Z).

(** No assignment of cell 11 is out of range. *)
Lemma tmp_pattern_ok (perm : list nat) :
  (forall i, i ∈ perm -> i < word_length) ->
  Notebook.tmp_pattern word_length known perm = Ok (written word_length known perm).
Proof.
  intros Hperm. unfold Notebook.tmp_pattern, written. fold write.
  apply (foldlM_ok _ write (fun pat => length pat = word_length)).
  - intros pat [i c] Hpat Hin. unfold Py.setitem, write. simpl.
    apply elem_of_zip_l in Hin. apply Hperm in Hin.
    rewrite decide_True by lia. by rewrite length_insert.
  - apply length_known_pattern.
Qed.

Lemma known_patterns_ok :
  Notebook.known_patterns word_length known =
  Ok (map (fun perm => Py.join_chars (written word_length known perm))
          (concat (Notebook.perms_unknown_combos word_length known))).
Proof.
  unfold Notebook.known_patterns. apply mapM_ok.
  intros perm Hperm%perms_unknown_combos_spec.
  rewrite tmp_pattern_ok; [done|]. intros i Hi. by apply Hperm.
Qed.

End pattern_facts.

(** ** The pattern generator *)

Ltac elem_of_cases H :=
  repeat (apply elem_of_cons in H as [H|H]; [simplify_eq|]);
  try (by apply elem_of_nil in H).

Lemma example_positions_in_range :
  Spec.positions_in_range 5 Examples.known_letters_loc.
Proof. intros c p H Hp. unfold Examples.known_letters_loc in H. elem_of_cases H; lia. Defined.

Lemma example_no_conflict : Spec.no_conflict Examples.known_letters_loc.
Proof.
  intros c1 c2 p H1 H2 Hp. unfold Examples.known_letters_loc in H1, H2.
  elem_of_cases H1; elem_of_cases H2; done || lia.
Defined.

(** C3: on a valid input (every fixed position inside the word, no two
    fixed constraints in conflict) the pattern cell does not raise, and every
    pattern it produces has exactly [word_length] characters, carries the
    letter of every fixed constraint at its position, carries the [j]-th
    floating letter at the [j]-th of [len(unknown_letters)] pairwise distinct
    open positions, and has the wildcard [?] at every other open position. *)
Theorem C3_patterns_well_formed (word_length : nat) (known : list (ascii * Z)) :
  Spec.positions_in_range word_length known ->
  Spec.no_conflict known ->
  exists patterns : list string,
    Notebook.known_patterns word_length known = Ok patterns /\
    forall pat : string, pat ∈ patterns ->
      String.length pat = word_length /\
      (forall (c : ascii) (p : Z),
          (c, p) ∈ known -> (0 <= p)%Z -> String.get (Z.to_nat p) pat = Some c) /\
      exists pos : list nat,
        length pos = length (Notebook.unknown_letters known) /\
        NoDup pos /\
        (forall i : nat, i ∈ pos -> i < word_length /\ Spec.open_position known i) /\
        (forall j i : nat,
            pos !! j = Some i ->
            String.get i pat = Notebook.unknown_letters known !! j) /\
        (forall i : nat,
            i < word_length -> Spec.open_position known i -> i ∉ pos ->
            String.get i pat = Some "?"%char).
Proof.
  intros Hrange Hnc. eexists. split; [apply known_patterns_ok|].
  intros pat (perm & -> & Hperm)%map_elem_of.
  apply perms_unknown_combos_spec in Hperm as (Hlen & Hnd & Hopen).
  assert (Hfst : (zip perm (Notebook.unknown_letters known)).*1 = perm)
    by (apply fst_zip; lia).
  unfold written. split; [|split].
  - by rewrite length_join_chars, length_foldl_write, length_known_pattern.
  - intros c p Hin Hp. rewrite get_join_chars.
    pose proof (Hrange c p Hin Hp) as Hlt.
    rewrite foldl_write_other.
    + rewrite lookup_known_pattern by lia.
      rewrite Z2Nat.id by done. by rewrite (dict_letters_fixed known p c).
    + rewrite Hfst. intros [_ Hi]%Hopen. apply (Hi c). by rewrite Z2Nat.id.
  - exists perm. repeat split; try done; try (by apply Hopen).
    + intros j i Hj. rewrite get_join_chars.
      destruct (lookup_lt_is_Some_2 (Notebook.unknown_letters known) j) as [c Hc].
      { rewrite <- Hlen. by eapply lookup_lt_Some. }
      rewrite Hc. apply (foldl_write_at _ _ j).
      * by rewrite Hfst.
      * by apply lookup_zip_Some.
      * rewrite length_known_pattern. apply Hopen. by eapply list_elem_of_lookup_2.
    + intros i Hi Hop Hnotin. rewrite get_join_chars.
      rewrite foldl_write_other by (by rewrite Hfst).
      rewrite lookup_known_pattern by done.
      by rewrite (proj2 (dict_letters_None known i)).
Qed.

Lemma C3_patterns_well_formed_witness :
  Spec.positions_in_range 5 Examples.known_letters_loc /\
  Spec.no_conflict Examples.known_letters_loc /\
  exists patterns : list string,
    Notebook.known_patterns 5 Examples.known_letters_loc = Ok patterns /\
    forall pat : string, pat ∈ patterns -> String.length pat = 5.
Proof.
  split; [exact example_positions_in_range|].
  split; [exact example_no_conflict|].
  destruct (C3_patterns_well_formed 5 Examples.known_letters_loc
              example_positions_in_range example_no_conflict) as (ps & Hps & H).
  exists ps. split; [exact Hps|]. intros pat Hpat. exact (proj1 (H pat Hpat)).
Defined.

(** C4: [unknown_pos] lists each open position once and [unknown_letters]
    has one letter for each constraint with a negative position.  With [n]
    open positions and [k] floating letters, the pattern cell does not raise
    and the number of patterns is [C(n, k) * k!], that is [n! / (n - k)!],
    when [k <= n]; it is zero when [k > n]; it is one when [k = 0]. *)
Theorem C4_pattern_count (word_length : nat) (known : list (ascii * Z)) :
  let n := length (Notebook.unknown_pos word_length known) in
  let k := length (Notebook.unknown_letters known) in
  (NoDup (Notebook.unknown_pos word_length known) /\
   forall i : nat, i ∈ Notebook.unknown_pos word_length known <->
                   i < word_length /\ Spec.open_position known i) /\
  k = length (filter (fun l : ascii * Z => (l.2 < 0)%Z) known) /\
  exists patterns : list string,
    Notebook.known_patterns word_length known = Ok patterns /\
    (k <= n ->
     length patterns = Spec.binomial n k * fact k /\
     length patterns * fact (n - k) = fact n) /\
    (n < k -> length patterns = 0) /\
    (k = 0 -> length patterns = 1).
Proof.
  intros n k.
  split; [split; [apply NoDup_unknown_pos|apply elem_of_unknown_pos]|].
  split; [unfold k, Notebook.unknown_letters; by rewrite length_map, length_sorted|].
  eexists. split; [apply known_patterns_ok|].
  rewrite length_map, length_perms_unknown_combos. fold n k.
  split; [|split].
  - intros Hle. split; [done|]. by apply binomial_fact.
  - intros Hlt. by rewrite binomial_gt.
  - intros Hk. rewrite Hk. by destruct n.
Qed.

Lemma C4_pattern_count_witness :
  exists patterns : list string,
    Notebook.known_patterns 5 Examples.known_letters_loc = Ok patterns /\
    length patterns = 6.
Proof.
  destruct (C4_pattern_count 5 Examples.known_letters_loc) as (_ & _ & ps & Hps & H & _).
  exists ps. split; [exact Hps|].
  apply (proj1 (H ltac:(vm_compute; lia))).
Defined.

(** C5: for [word_length = 5], the fixed constraints [e] at 1 and [d] at 4
    and the floating letters [i] and [t], the pattern cell produces the six
    patterns of the notebook in their order: the position pairs of
    [unknown_combos] in order, and for each pair its permutations in order.
    The cells are functions of their inputs, so every run gives this list. *)
Theorem C5_example_patterns :
  Notebook.fixed_letters Examples.known_letters_loc = [("e"%char, 1%Z); ("d"%char, 4%Z)] /\
  Notebook.unknown_letters Examples.known_letters_loc = ["i"; "t"]%char /\
  Notebook.unknown_combos 5 Examples.known_letters_loc = [[0; 2]; [0; 3]; [2; 3]] /\
  Notebook.perms_unknown_combos 5 Examples.known_letters_loc =
    [[[0; 2]; [2; 0]]; [[0; 3]; [3; 0]]; [[2; 3]; [3; 2]]] /\
  Notebook.known_patterns 5 Examples.known_letters_loc =
    Ok ["iet?d"; "tei?d"; "ie?td"; "te?id"; "?eitd"; "?etid"].
Proof. repeat split; vm_compute; reflexivity. Qed.

(** ** Facts about the arrays *)

Section np_facts.

Implicit Types (r : np.row) (rows : list np.row).

Lemma ascii_compare_refl (c : ascii) : Ascii.compare c c = Eq.
Proof. unfold Ascii.compare. apply N.compare_refl. Qed.

Lemma ascii_compare_lt_trans (a b c : ascii) :
  Ascii.compare a b = Lt -> Ascii.compare b c = Lt -> Ascii.compare a c = Lt.
Proof. unfold Ascii.compare. rewrite !N.compare_lt_iff. lia. Qed.

Lemma row_compare_refl r : np.row_compare r r = Eq.
Proof. induction r as [|c r IH]; simpl; [done|]. by rewrite ascii_compare_refl. Qed.

Lemma row_compare_eq r1 r2 : np.row_compare r1 r2 = Eq -> r1 = r2.
Proof.
  revert r2. induction r1 as [|c1 r1 IH]; intros [|c2 r2]; simpl; try done.
  destruct (Ascii.compare c1 c2) eqn:E; try done.
  apply Ascii.compare_eq_iff in E as ->. by intros ->%IH.
Qed.

Lemma row_compare_antisym r1 r2 :
  np.row_compare r2 r1 = CompOpp (np.row_compare r1 r2).
Proof.
  revert r2. induction r1 as [|c1 r1 IH]; intros [|c2 r2]; simpl; try done.
  rewrite (Ascii.compare_antisym c2 c1).
  destruct (Ascii.compare c1 c2); simpl; auto.
Qed.

Lemma row_compare_gt r1 r2 : np.row_compare r1 r2 = Gt -> Spec.row_lt r2 r1.
Proof. intros H. unfold Spec.row_lt. by rewrite row_compare_antisym, H. Qed.

#[local] Instance row_lt_trans : Transitive Spec.row_lt.
Proof.
  unfold Spec.row_lt. intros r1.
  induction r1 as [|c1 r1 IH]; intros [|c2 r2] [|c3 r3]; simpl; try done.
  destruct (Ascii.compare c1 c2) eqn:E12; try done.
  - apply Ascii.compare_eq_iff in E12 as ->.
    destruct (Ascii.compare c2 c3); try done. apply IH.
  - intros _. destruct (Ascii.compare c2 c3) eqn:E23; try done.
    + apply Ascii.compare_eq_iff in E23 as <-. by rewrite E12.
    + by rewrite (ascii_compare_lt_trans _ _ _ E12 E23).
Qed.

#[local] Instance row_lt_irrefl : Irreflexive Spec.row_lt.
Proof. intros r. unfold complement, Spec.row_lt. by rewrite row_compare_refl. Qed.

Lemma elem_of_insert_row r rows x :
  x ∈ np.insert_row r rows <-> x = r \/ x ∈ rows.
Proof.
  induction rows as [|r' rows IH]; simpl.
  - rewrite list_elem_of_singleton, elem_of_nil. tauto.
  - destruct (np.row_compare r r') eqn:E.
    + apply row_compare_eq in E as ->. rewrite elem_of_cons. tauto.
    + rewrite !elem_of_cons. tauto.
    + rewrite !elem_of_cons, IH. tauto.
Qed.

Lemma StronglySorted_insert_row r rows :
  StronglySorted Spec.row_lt rows -> StronglySorted Spec.row_lt (np.insert_row r rows).
Proof.
  induction 1 as [|r' rows Hsorted IH Hall]; simpl.
  - repeat constructor.
  - destruct (np.row_compare r r') eqn:E.
    + by constructor.
    + constructor; [by constructor|].
      constructor; [done|].
      eapply Forall_impl; [done|]. intros r'' ?. by etrans.
    + constructor; [done|].
      apply Forall_forall. intros x [->|Hx]%elem_of_insert_row.
      * by apply row_compare_gt.
      * by eapply Forall_forall in Hall.
Qed.

Lemma insert_row_below r rows :
  Forall (Spec.row_lt r) rows -> np.insert_row r rows = r :: rows.
Proof. destruct 1 as [|r' rows Hlt _]; simpl; [done|]. by rewrite Hlt. Qed.

(** The rows of [np.unique]: strictly increasing, the same rows as before. *)
Lemma StronglySorted_unique_rows rows :
  StronglySorted Spec.row_lt (foldr np.insert_row [] rows).
Proof.
  induction rows as [|r rows IH]; simpl; [constructor|].
  by apply StronglySorted_insert_row.
Qed.

Lemma elem_of_unique_rows rows x :
  x ∈ foldr np.insert_row [] rows <-> x ∈ rows.
Proof.
  induction rows as [|r rows IH]; simpl; [done|].
  by rewrite elem_of_insert_row, elem_of_cons, IH.
Qed.

Lemma unique_rows_sorted rows :
  StronglySorted Spec.row_lt rows -> foldr np.insert_row [] rows = rows.
Proof.
  induction 1 as [|r rows Hsorted IH Hall]; simpl; [done|].
  rewrite IH. by apply insert_row_below.
Qed.

Lemma StronglySorted_row_lt_NoDup rows :
  StronglySorted Spec.row_lt rows -> NoDup rows.
Proof.
  induction 1 as [|r rows Hsorted IH Hall]; constructor; [|done].
  intros Hin. eapply Forall_forall in Hall; [|done].
  by apply irreflexivity in Hall; [|apply _].
Qed.

Lemma StronglySorted_filter {A : Type} (R : relation A) (P : A -> Prop)
    `{!forall x, Decision (P x)} (l : list A) :
  StronglySorted R l -> StronglySorted R (filter P l).
Proof.
  induction 1 as [|x l Hsorted IH Hall]; [constructor|].
  rewrite filter_cons. case_decide; [|done].
  constructor; [done|].
  apply Forall_forall. intros y [_ Hy]%list_elem_of_filter.
  by eapply Forall_forall in Hall.
Qed.

(** Selecting the rows at the indices of a mask is filtering by the mask. *)
Lemma take_argwhere_from (P : np.row -> Prop) `{!forall r, Decision (P r)}
    (pre rows : list np.row) :
  Py.mapM (fun i => match (pre ++ rows) !! i with
                    | Some r => Ok r
                    | None => Raise IndexError
                    end)
          (np.argwhere_from (length pre) (map (fun r => bool_decide (P r)) rows))
  = Ok (filter P rows).
Proof.
  revert pre. induction rows as [|r rows IH]; intros pre; simpl; [done|].
  specialize (IH (pre ++ [r])).
  rewrite length_app, <- (assoc_L (++)) in IH. simpl in IH.
  rewrite Nat.add_1_r in IH.
  rewrite filter_cons. case_bool_decide; case_decide; try done; simpl.
  rewrite list_lookup_middle by done. simpl. by rewrite IH.
Qed.

Lemma where_col_eq_2D (n : nat) rows (j : Z) (c : ascii) (i : nat) :
  np.index n j = Ok i ->
  np.where_col_eq (np.Arr2D n rows) j c =
  Ok (np.Arr2D n (filter (fun r => r !! i = Some c) rows)).
Proof.
  intros Hi. unfold np.where_col_eq, np.col_eq. rewrite Hi. simpl.
  unfold np.argwhere.
  by rewrite (take_argwhere_from (fun r => r !! i = Some c) [] rows).
Qed.

Lemma where_col_eq_raise (n : nat) rows (j : Z) (c : ascii) (e : exn) :
  np.index n j = Raise e -> np.where_col_eq (np.Arr2D n rows) j c = Raise e.
Proof. intros Hi. unfold np.where_col_eq, np.col_eq. by rewrite Hi. Qed.

Lemma index_in_range (n : nat) (j : Z) :
  (0 <= j < Z.of_nat n)%Z -> np.index n j = Ok (Z.to_nat j).
Proof. intros H. unfold np.index. by rewrite decide_True. Qed.

Lemma index_out_of_range (n : nat) (j : Z) :
  (Z.of_nat n <= j)%Z -> np.index n j = Raise IndexError.
Proof.
  intros H. unfold np.index. rewrite decide_False by lia. by rewrite decide_False by lia.
Qed.

End np_facts.

(** ** Facts about the lookup and filter cells *)

Section filter_facts.

Variable known : list (ascii * Z).
Variable avail_in : list ascii.

Implicit Types (cw : list string) (rows : list np.row).

Lemma chars_join_chars (r : np.row) : Py.chars (Py.join_chars r) = r.
Proof. apply list_ascii_of_string_of_list_ascii. Qed.

Lemma length_chars (w : string) : length (Py.chars w) = String.length w.
Proof. induction w as [|c w IH]; simpl; [done|]. by rewrite IH. Qed.

Lemma map_chars_join_chars rows : map Py.chars (map Py.join_chars rows) = rows.
Proof.
  induction rows as [|r rows IH]; simpl; [done|].
  by rewrite chars_join_chars, IH.
Qed.

Lemma lookup_loop_lengths (word_length : nat) (lookup : string -> result (list string))
    (patterns : list string) (acc cw : list string) :
  Notebook.lookup_loop word_length lookup patterns acc = Ok cw ->
  Forall (fun w => String.length w = word_length) acc ->
  Forall (fun w => String.length w = word_length) cw.
Proof.
  revert acc. induction patterns as [|p patterns IH]; intros acc; simpl.
  - by intros [= ->].
  - destruct (lookup p) as [words|e]; simpl; [|done].
    case_decide; intros Hloop Hacc; [|by eapply IH].
    eapply IH; [done|]. apply Forall_app. split; [done|].
    apply Forall_forall. unfold Notebook.good_words.
    by intros w [? _]%list_elem_of_filter.
Qed.

Lemma candidate_words_lengths (word_length : nat)
    (lookup : string -> result (list string)) cw :
  Notebook.candidate_words word_length known lookup = Ok cw ->
  Forall (fun w => String.length w = word_length) cw.
Proof.
  unfold Notebook.candidate_words.
  destruct (Notebook.known_patterns word_length known) as [ps|e]; simpl; [|done].
  intros H. by eapply lookup_loop_lengths.
Qed.

Lemma tolist_array rows : np.tolist (np.array rows) = rows.
Proof. by destruct rows. Qed.

Lemma tolist_unique (a : np.ndarray) :
  np.tolist (np.unique a) = foldr np.insert_row [] (np.tolist a).
Proof. by destruct a. Qed.

Lemma tolist_candidate_arr cw :
  np.tolist (Notebook.candidate_arr cw) = foldr np.insert_row [] (map Py.chars cw).
Proof. unfold Notebook.candidate_arr. by rewrite tolist_unique, tolist_array. Qed.

(** An array built from rows of length [n], at least one. *)
Lemma array_uniform (n : nat) rows :
  Forall (fun r => length r = n) rows -> rows <> [] -> np.array rows = np.Arr2D n rows.
Proof. destruct 1 as [|r rows Hr _]; [done|]. intros _. simpl. by rewrite Hr. Qed.

Lemma allowed_iff (x : np.row) :
  allowed known avail_in x <-> forall c : ascii, c ∈ x -> c ∈ Notebook.avail_letters known avail_in.
Proof.
  unfold allowed. rewrite size_empty_iff. split.
  - intros H c Hc.
    destruct (decide (c ∈ Notebook.avail_letters known avail_in)) as [|Hn]; [done|].
    assert (c ∈ (list_to_set x : gset ascii) ∖
                  list_to_set (Notebook.avail_letters known avail_in)) as Hc'
      by (apply elem_of_difference; by rewrite !elem_of_list_to_set).
    rewrite H in Hc'. by apply not_elem_of_empty in Hc'.
  - intros H. apply elem_of_equiv_empty. intros c.
    rewrite elem_of_difference, !elem_of_list_to_set. intros [Hc Hn]. by apply Hn, H.
Qed.

Lemma tolist_filtered_candidate_arr cw :
  np.tolist (Notebook.filtered_candidate_arr known avail_in cw) =
  filter (allowed known avail_in) (foldr np.insert_row [] (map Py.chars cw)).
Proof.
  unfold Notebook.filtered_candidate_arr.
  by rewrite tolist_array, tolist_candidate_arr.
Qed.

Lemma filter_all {A : Type} (P : A -> Prop) `{!forall x, Decision (P x)} (l : list A) :
  Forall P l -> filter P l = l.
Proof.
  induction 1 as [|x l Hx _ IH]; [done|].
  by rewrite filter_cons_True, IH.
Qed.

Lemma elem_of_foldl_keep (fl : list (ascii * Z)) rows (r : np.row) :
  r ∈ foldl keep rows fl <->
  r ∈ rows /\ forall f, f ∈ fl -> r !! Z.to_nat f.2 = Some f.1.
Proof.
  revert rows. induction fl as [|f fl IH]; intros rows; simpl.
  - split; [|tauto]. intros H. split; [done|]. by intros f ?%elem_of_nil.
  - rewrite IH. unfold keep. rewrite list_elem_of_filter. split.
    + intros [[Hf Hr] Hfl]. split; [done|]. by intros f' [->|?]%elem_of_cons; auto.
    + intros [Hr Hfl]. split; [split; [|done]|]; intros; apply Hfl; by constructor.
Qed.

Lemma foldl_keep_all (fl : list (ascii * Z)) rows :
  (forall r f, r ∈ rows -> f ∈ fl -> r !! Z.to_nat f.2 = Some f.1) ->
  foldl keep rows fl = rows.
Proof.
  induction fl as [|f fl IH]; intros H; simpl; [done|].
  assert (keep rows f = rows) as ->.
  { apply filter_all, Forall_forall. intros r Hr. apply H; [done|by left]. }
  apply IH. intros r f' Hr Hf'. apply H; [done|by right].
Qed.

Lemma StronglySorted_foldl_keep (fl : list (ascii * Z)) rows :
  StronglySorted Spec.row_lt rows -> StronglySorted Spec.row_lt (foldl keep rows fl).
Proof.
  revert rows. induction fl as [|f fl IH]; intros rows Hs; simpl; [done|].
  by apply IH, StronglySorted_filter.
Qed.

Lemma foldlM_where_col_eq (n : nat) (fl : list (ascii * Z)) rows :
  (forall f, f ∈ fl -> (0 <= f.2 < Z.of_nat n)%Z) ->
  Py.foldlM (fun (a : np.ndarray) (f : ascii * Z) => np.where_col_eq a f.2 f.1)
            (np.Arr2D n rows) fl
  = Ok (np.Arr2D n (foldl keep rows fl)).
Proof.
  revert rows. induction fl as [|f fl IH]; intros rows H; simpl; [done|].
  rewrite (where_col_eq_2D n rows f.2 f.1 (Z.to_nat f.2))
    by (apply index_in_range, H; by left).
  simpl. apply IH. intros f' Hf'. apply H. by right.
Qed.

Lemma foldlM_where_col_eq_inv (n : nat) (fl : list (ascii * Z)) rows (a' : np.ndarray) :
  (forall f, f ∈ fl -> (0 <= f.2)%Z) ->
  Py.foldlM (fun (a : np.ndarray) (f : ascii * Z) => np.where_col_eq a f.2 f.1)
            (np.Arr2D n rows) fl = Ok a' ->
  forall f, f ∈ fl -> (0 <= f.2 < Z.of_nat n)%Z.
Proof.
  revert rows. induction fl as [|f fl IH]; intros rows Hpos; simpl.
  - by intros _ f ?%elem_of_nil.
  - destruct (decide (f.2 < Z.of_nat n)%Z) as [Hlt|Hge].
    + rewrite (where_col_eq_2D n rows f.2 f.1 (Z.to_nat f.2)).
      * simpl. intros Hloop f' [->|Hf']%elem_of_cons.
        -- split; [apply Hpos; by left|done].
        -- eapply IH; [|done|done]. intros ??. apply Hpos. by right.
      * apply index_in_range. split; [apply Hpos; by left|done].
    + rewrite (where_col_eq_raise n rows f.2 f.1 IndexError); [done|].
      apply index_out_of_range. lia.
Qed.

Lemma fixed_letters_nonneg (f : ascii * Z) :
  f ∈ Notebook.fixed_letters known -> (0 <= f.2)%Z.
Proof. destruct f as [c p]. by intros [_ ?]%elem_of_fixed_letters. Qed.

(** The loop of cell 17 on a two-dimensional array. *)
Lemma fixed_loop_2D (n : nat) rows :
  (forall c p, (c, p) ∈ known -> (0 <= p)%Z -> (p < Z.of_nat n)%Z) ->
  Notebook.fixed_loop known (np.Arr2D n rows) =
  Ok (np.Arr2D n (foldl keep rows (Notebook.fixed_letters known))).
Proof.
  intros H. apply foldlM_where_col_eq.
  intros [c p] [Hin Hp]%elem_of_fixed_letters. simpl. split; [done|by eapply H].
Qed.

Lemma fixed_loop_2D_inv (n : nat) rows (a' : np.ndarray) :
  Notebook.fixed_loop known (np.Arr2D n rows) = Ok a' ->
  (forall c p, (c, p) ∈ known -> (0 <= p)%Z -> (p < Z.of_nat n)%Z) /\
  a' = np.Arr2D n (foldl keep rows (Notebook.fixed_letters known)).
Proof.
  intros Hloop.
  assert (forall c p, (c, p) ∈ known -> (0 <= p)%Z -> (p < Z.of_nat n)%Z) as Hrange.
  { intros c p Hin Hp.
    eapply (foldlM_where_col_eq_inv n _ rows a' fixed_letters_nonneg Hloop (c, p)).
    by apply elem_of_fixed_letters. }
  split; [done|]. rewrite fixed_loop_2D in Hloop by done. by injection Hloop.
Qed.

Lemma elem_of_kept rows (r : np.row) :
  r ∈ foldl keep rows (Notebook.fixed_letters known) <->
  r ∈ rows /\ forall c p, (c, p) ∈ known -> (0 <= p)%Z -> r !! Z.to_nat p = Some c.
Proof.
  rewrite elem_of_foldl_keep. split; intros [Hr H]; (split; [done|]).
  - intros c p Hin Hp. apply (H (c, p)). by apply elem_of_fixed_letters.
  - intros [c p] [Hin Hp]%elem_of_fixed_letters. by apply H.
Qed.

End filter_facts.

Lemma bind_Ok {A B : Type} (a : A) (f : A -> result B) : (Ok a ≫= f) = f a.
Proof. done. Qed.

Section run_facts.

Variable known : list (ascii * Z).
Variable avail_in : list ascii.

Lemma rows_lengths (n : nat) (cw : list string) (r : np.row) :
  Forall (fun w => String.length w = n) cw ->
  r ∈ foldr np.insert_row [] (map Py.chars cw) -> length r = n.
Proof.
  intros Hcw (w & -> & Hw)%elem_of_unique_rows%map_elem_of.
  rewrite length_chars. by eapply Forall_forall in Hcw.
Qed.

(** When a row is left, the array of cell 16 is two-dimensional. *)
Lemma filtered_candidate_arr_2D (n : nat) (cw : list string) :
  Forall (fun w => String.length w = n) cw ->
  np.tolist (Notebook.filtered_candidate_arr known avail_in cw) <> [] ->
  Notebook.filtered_candidate_arr known avail_in cw =
  np.Arr2D n (filter (allowed known avail_in) (foldr np.insert_row [] (map Py.chars cw))).
Proof.
  intros Hcw Hne. rewrite tolist_filtered_candidate_arr in Hne.
  unfold Notebook.filtered_candidate_arr. rewrite tolist_candidate_arr.
  apply array_uniform; [|done].
  apply Forall_forall. intros r [_ Hr]%list_elem_of_filter. by eapply rows_lengths.
Qed.

Lemma last_cell_empty (cw : list string) :
  np.tolist (Notebook.filtered_candidate_arr known avail_in cw) = [] ->
  Notebook.last_cell known avail_in cw =
  Ok (Notebook.Message (no_words_message known avail_in),
      Notebook.filtered_candidate_arr known avail_in cw).
Proof.
  intros Hnil. unfold Notebook.last_cell, np.len. by rewrite Hnil.
Qed.

Lemma last_cell_nonempty (cw : list string) :
  np.tolist (Notebook.filtered_candidate_arr known avail_in cw) <> [] ->
  Notebook.last_cell known avail_in cw =
  a' ← Notebook.fixed_loop known (Notebook.filtered_candidate_arr known avail_in cw);
  Ok (Notebook.Lines
        (map Py.join_chars (np.tolist (Notebook.filtered_candidate_arr known avail_in cw))),
      a').
Proof.
  intros Hne. unfold Notebook.last_cell, np.len.
  by destruct (np.tolist (Notebook.filtered_candidate_arr known avail_in cw)).
Qed.

Lemma StronglySorted_join_chars (rows : list np.row) :
  StronglySorted Spec.row_lt rows ->
  StronglySorted Spec.word_lt (map Py.join_chars rows).
Proof.
  induction 1 as [|r rows Hs IH Hall]; simpl; constructor; [done|].
  apply Forall_forall. intros w (r' & -> & Hr')%map_elem_of.
  unfold Spec.word_lt. rewrite !chars_join_chars. by eapply Forall_forall in Hall.
Qed.

End run_facts.

(** ** The run with more floating letters than open positions *)

(** C6: when the floating letters outnumber the open positions, the
    pattern cell produces no pattern, no lookup is made, no candidate is left
    and the run ends normally with the message of the no-match branch,
    whatever the word service would answer. *)
Theorem C6_more_floating_than_open (word_length : nat) (known : list (ascii * Z))
    (avail_in : list ascii) (lookup : string -> result (list string)) :
  length (Notebook.unknown_pos word_length known) < length (Notebook.unknown_letters known) ->
  Notebook.known_patterns word_length known = Ok [] /\
  Notebook.candidate_words word_length known lookup = Ok [] /\
  Notebook.candidate_filter known avail_in [] = Ok [] /\
  Notebook.run word_length known avail_in lookup =
    Ok (Notebook.Message (no_words_message known avail_in)).
Proof.
  intros Hlt.
  assert (Notebook.known_patterns word_length known = Ok []) as Hpat.
  { rewrite known_patterns_ok.
    assert (concat (Notebook.perms_unknown_combos word_length known) = []) as ->; [|done].
    apply length_zero_iff_nil.
    by rewrite length_perms_unknown_combos, binomial_gt. }
  assert (Notebook.candidate_words word_length known lookup = Ok []) as Hcw.
  { unfold Notebook.candidate_words. by rewrite Hpat. }
  split; [done|]. split; [done|]. split.
  - unfold Notebook.candidate_filter. by rewrite last_cell_empty.
  - unfold Notebook.run. rewrite Hcw, bind_Ok. by rewrite last_cell_empty.
Qed.

Lemma C6_more_floating_than_open_witness :
  Notebook.run 5
    [("a"%char, 0%Z); ("b"%char, 1%Z); ("c"%char, 2%Z);
     ("w"%char, (-1)%Z); ("x"%char, (-1)%Z); ("y"%char, (-1)%Z); ("z"%char, (-1)%Z)]
    ["q"%char] (fun _ => Raise RequestError) =
  Ok (Notebook.Message "No words found containing the letters q, a, b, c, w, x, y, z").
Proof.
  refine (proj2 (proj2 (proj2 (C6_more_floating_than_open 5 _ _ _ _)))).
  vm_compute. lia.
Defined.

(** ** The allowed-letter filter *)

(** C7: the letters used by the filter of cell 16 are the letters entered
    by the user together with the letter of every constraint, fixed or
    floating; a row of [candidate_arr] is in [filtered_candidate_arr] exactly
    when each of its characters is one of these letters. *)
Theorem C7_allowed_letter_filter (known : list (ascii * Z)) (avail_in : list ascii)
    (cw : list string) :
  (list_to_set (Notebook.avail_letters known avail_in) : gset ascii) =
    list_to_set avail_in ∪ list_to_set (Notebook.known_letters known) /\
  (forall c : ascii, c ∈ Notebook.known_letters known <-> exists p : Z, (c, p) ∈ known) /\
  (forall x : np.row,
      x ∈ np.tolist (Notebook.filtered_candidate_arr known avail_in cw) <->
      x ∈ np.tolist (Notebook.candidate_arr cw) /\
      forall c : ascii, c ∈ x -> c ∈ Notebook.avail_letters known avail_in).
Proof.
  split; [|split].
  - unfold Notebook.avail_letters. apply list_to_set_app_L.
  - intros c. unfold Notebook.known_letters. rewrite map_elem_of. split.
    + intros ([c' p] & -> & Hin). by exists p.
    + intros [p Hin]. by exists (c, p).
  - intros x.
    rewrite tolist_filtered_candidate_arr, tolist_candidate_arr, list_elem_of_filter.
    rewrite allowed_iff. tauto.
Qed.

Lemma C7_allowed_letter_filter_witness :
  (list_to_set (Notebook.avail_letters Examples.known_letters_loc Examples.avail_letters)
     : gset ascii) =
  list_to_set Examples.avail_letters
    ∪ list_to_set (Notebook.known_letters Examples.known_letters_loc).
Proof.
  exact (proj1 (C7_allowed_letter_filter
                  Examples.known_letters_loc Examples.avail_letters [])).
Defined.

(** ** Deduplication *)

(** C8, as the specification states it, fails: two words that differ only in
    the case of a letter stay two rows of [candidate_arr]. *)
Lemma C8_case_variants_kept :
  map Spec.lowercase (Py.chars "Teiid") = map Spec.lowercase (Py.chars "teiid") /\
  np.tolist (Notebook.candidate_arr ["teiid"; "Teiid"]) =
    [Py.chars "Teiid"; Py.chars "teiid"] /\
  length (np.tolist (Notebook.candidate_arr ["teiid"; "Teiid"])) = 2.
Proof. repeat split; vm_compute; reflexivity. Qed.

(** C8, amended: the deduplication of cell 15 (the same expression in both
    notebooks) keeps each distinct sequence of characters of the aggregated
    words exactly once, in increasing order; sequences are compared as they
    are, without case normalisation. *)
Theorem C8_deduplication (cw : list string) :
  let rows := np.tolist (Notebook.candidate_arr cw) in
  Draft.candidate_arr cw = Notebook.candidate_arr cw /\
  NoDup rows /\
  StronglySorted Spec.row_lt rows /\
  (forall x : np.row, x ∈ rows <-> exists w : string, x = Py.chars w /\ w ∈ cw).
Proof.
  simpl. rewrite tolist_candidate_arr. repeat split.
  - apply StronglySorted_row_lt_NoDup, StronglySorted_unique_rows.
  - apply StronglySorted_unique_rows.
  - by intros ?%elem_of_unique_rows%map_elem_of.
  - intros ?. by apply elem_of_unique_rows, map_elem_of.
Qed.

Lemma C8_deduplication_witness :
  NoDup (np.tolist (Notebook.candidate_arr Examples.candidate_words)).
Proof. exact (proj1 (proj2 (C8_deduplication Examples.candidate_words))). Defined.

(** ** The report *)

(** C9, as the specification states it, fails: no row survives the three
    filters, yet the run prints a word and not the no-match message. *)
Lemma C9_no_message_when_nothing_survives :
  Notebook.candidate_words 5 Examples.known_letters_loc Examples.lookup_bidet
    = Ok ["bidet"] /\
  Notebook.candidate_filter Examples.known_letters_loc Examples.avail_letters ["bidet"]
    = Ok [] /\
  Notebook.run 5 Examples.known_letters_loc Examples.avail_letters Examples.lookup_bidet
    = Ok (Notebook.Lines ["bidet"]).
Proof. repeat split; vm_compute; reflexivity. Qed.

(** C9, amended: the test of the last cell is on the rows left by the
    deduplication and the allowed-letter filter.  When none is left the run
    prints the no-match message, which lists the allowed letters.  When some
    are left and every fixed position is inside the word, the run prints no
    message but a list of words in strictly increasing order; every word of
    the list is an aggregated word whose characters are all allowed (a row
    of [filtered_candidate_arr]), and every row left by the fixed-position
    loop, that is every aggregated word whose characters are all allowed and
    that has the letter of every fixed constraint in place, is in the
    list. *)
Theorem C9_report (word_length : nat) (known : list (ascii * Z)) (avail_in : list ascii)
    (lookup : string -> result (list string)) (cw : list string) :
  Notebook.candidate_words word_length known lookup = Ok cw ->
  (np.tolist (Notebook.filtered_candidate_arr known avail_in cw) = [] ->
   Notebook.run word_length known avail_in lookup =
     Ok (Notebook.Message (no_words_message known avail_in))) /\
  (np.tolist (Notebook.filtered_candidate_arr known avail_in cw) <> [] ->
   Spec.positions_in_range word_length known ->
   exists (ws : list string) (out : list np.row),
     Notebook.run word_length known avail_in lookup = Ok (Notebook.Lines ws) /\
     Notebook.candidate_filter known avail_in cw = Ok out /\
     StronglySorted Spec.word_lt ws /\
     (forall w : string,
         w ∈ ws ->
         Py.chars w ∈ np.tolist (Notebook.filtered_candidate_arr known avail_in cw) /\
         w ∈ cw /\
         forall c : ascii, c ∈ Py.chars w -> c ∈ Notebook.avail_letters known avail_in) /\
     (forall r : np.row, r ∈ out -> Py.join_chars r ∈ ws) /\
     (forall w : string,
         w ∈ cw ->
         (forall c : ascii, c ∈ Py.chars w -> c ∈ Notebook.avail_letters known avail_in) ->
         (forall (c : ascii) (p : Z),
             (c, p) ∈ known -> (0 <= p)%Z -> String.get (Z.to_nat p) w = Some c) ->
         w ∈ ws)).
Proof.
  intros Hcw. unfold Notebook.run, Notebook.candidate_filter.
  rewrite Hcw, bind_Ok. split.
  - intros Hnil. by rewrite last_cell_empty.
  - intros Hne Hrange.
    rewrite last_cell_nonempty by done.
    rewrite (filtered_candidate_arr_2D known avail_in word_length cw)
      by eauto using candidate_words_lengths.
    rewrite fixed_loop_2D by done.
    cbn [mbind Py.result_bind fmap Py.result_fmap fst snd np.tolist].
    set (frows := filter (allowed known avail_in)
                         (foldr np.insert_row [] (map Py.chars cw))).
    assert (forall w : string, Py.join_chars (Py.chars w) = w) as Hjoin
      by apply string_of_list_ascii_of_string.
    assert (forall r : np.row,
              r ∈ frows <->
              (exists w : string, r = Py.chars w /\ w ∈ cw) /\
              forall c : ascii, c ∈ r -> c ∈ Notebook.avail_letters known avail_in)
      as Hfrows.
    { intros r. unfold frows.
      rewrite list_elem_of_filter, allowed_iff, elem_of_unique_rows, map_elem_of. tauto. }
    eexists _, _. split; [done|]. split; [done|]. split; [|split; [|split]].
    + apply StronglySorted_join_chars, StronglySorted_filter, StronglySorted_unique_rows.
    + intros w (r & -> & Hr)%map_elem_of.
      pose proof Hr as [(w' & -> & Hw') Hal]%Hfrows.
      rewrite Hjoin. split; [exact Hr|]. by split.
    + intros r [Hr _]%elem_of_kept. apply map_elem_of. by exists r.
    + intros w Hw Hal _. apply map_elem_of. exists (Py.chars w).
      split; [by rewrite Hjoin|]. apply Hfrows. split; [by exists w|done].
Qed.

Lemma C9_report_witness :
  exists ws : list string,
    Notebook.run 5 Examples.known_letters_loc Examples.avail_letters Examples.lookup
      = Ok (Notebook.Lines ws) /\
    StronglySorted Spec.word_lt ws /\
    "fetid" ∈ ws.
Proof.
  destruct (proj2 (C9_report 5 Examples.known_letters_loc Examples.avail_letters
                     Examples.lookup Examples.candidate_words
                     ltac:(vm_compute; reflexivity))
                  ltac:(vm_compute; discriminate) example_positions_in_range)
    as (ws & out & Hrun & _ & Hsorted & _ & _ & Hin).
  exists ws. split; [exact Hrun|]. split; [exact Hsorted|].
  apply Hin.
  - do 4 apply list_elem_of_further. apply list_elem_of_here.
  - intros c Hc. vm_compute in Hc. vm_compute.
    elem_of_cases Hc; repeat first [apply list_elem_of_here | apply list_elem_of_further].
  - intros c p H Hp. unfold Examples.known_letters_loc in H.
    elem_of_cases H; try reflexivity; lia.
Defined.

(** ** Idempotence of the candidate filter *)

Section rerun_facts.

Variable known : list (ascii * Z).
Variable avail_in : list ascii.

(** Cells 15 and 16 leave sorted rows of allowed letters as they are. *)
Lemma rerun_rows (rows : list np.row) :
  StronglySorted Spec.row_lt rows ->
  Forall (allowed known avail_in) rows ->
  filter (allowed known avail_in)
         (foldr np.insert_row [] (map Py.chars (map Py.join_chars rows))) = rows.
Proof.
  intros Hsorted Hall.
  rewrite map_chars_join_chars, unique_rows_sorted by done. by apply filter_all.
Qed.

Lemma rerun_filtered_candidate_arr (n : nat) (rows : list np.row) :
  StronglySorted Spec.row_lt rows ->
  Forall (allowed known avail_in) rows ->
  Forall (fun r => length r = n) rows ->
  rows <> [] ->
  Notebook.filtered_candidate_arr known avail_in (map Py.join_chars rows) =
  np.Arr2D n rows.
Proof.
  intros Hsorted Hall Hlen Hne.
  rewrite (filtered_candidate_arr_2D known avail_in n).
  - by rewrite rerun_rows.
  - apply Forall_forall. intros w (r & -> & Hr)%map_elem_of.
    rewrite length_join_chars. by eapply Forall_forall in Hlen.
  - by rewrite tolist_filtered_candidate_arr, rerun_rows.
Qed.

(** The rows of cell 16 are sorted, allowed and of the length of the words. *)
Lemma filtered_rows_spec (n : nat) (cw : list string) :
  Forall (fun w => String.length w = n) cw ->
  let frows := filter (allowed known avail_in)
                      (foldr np.insert_row [] (map Py.chars cw)) in
  StronglySorted Spec.row_lt frows /\
  Forall (allowed known avail_in) frows /\
  Forall (fun r => length r = n) frows.
Proof.
  intros Hcw frows. split; [|split].
  - apply StronglySorted_filter, StronglySorted_unique_rows.
  - apply Forall_forall. by intros r [? _]%list_elem_of_filter.
  - apply Forall_forall. intros r [_ Hr]%list_elem_of_filter. by eapply rows_lengths.
Qed.

End rerun_facts.

(** C10: on aggregated words of one length, when the candidate filter
    (deduplication, allowed-letter filter, fixed-position filter) ends
    normally, running it again on the words of its output ends normally with
    the same rows; the same holds of what the last cell prints, when the
    words it lists are given back as aggregated words. *)
Theorem C10_candidate_filter_idempotent (known : list (ascii * Z)) (avail_in : list ascii)
    (n : nat) (cw : list string) :
  Forall (fun w => String.length w = n) cw ->
  (forall out : list np.row,
      Notebook.candidate_filter known avail_in cw = Ok out ->
      Notebook.candidate_filter known avail_in (map Py.join_chars out) = Ok out) /\
  (forall (printed : Notebook.stdout) (a : np.ndarray),
      Notebook.last_cell known avail_in cw = Ok (printed, a) ->
      exists a' : np.ndarray,
        Notebook.last_cell known avail_in (printed_words printed) = Ok (printed, a')).
Proof.
  intros Hcw. unfold Notebook.candidate_filter.
  destruct (filtered_rows_spec known avail_in n cw Hcw) as (Hsorted & Hall & Hlen).
  destruct (decide (np.tolist (Notebook.filtered_candidate_arr known avail_in cw) = []))
    as [Hnil|Hne].
  { rewrite last_cell_empty by done. split.
    - intros out. cbn [fmap Py.result_fmap snd]. rewrite Hnil. intros [= <-].
      cbn [map]. by rewrite last_cell_empty.
    - intros printed a [= <- <-]. cbn [printed_words]. eexists. by rewrite last_cell_empty. }
  rewrite last_cell_nonempty by done.
  rewrite (filtered_candidate_arr_2D known avail_in n cw) by done.
  set (frows := filter (allowed known avail_in) (foldr np.insert_row [] (map Py.chars cw)))
    in *.
  assert (frows <> []) as Hfrows by (by rewrite tolist_filtered_candidate_arr in Hne).
  destruct (Notebook.fixed_loop known (np.Arr2D n frows)) as [a'|e] eqn:Hloop;
    [|by split].
  apply fixed_loop_2D_inv in Hloop as [Hrange ->].
  cbn [mbind Py.result_bind fmap Py.result_fmap snd np.tolist]. split.
  - intros out [= <-].
    set (orows := foldl keep frows (Notebook.fixed_letters known)).
    assert (forall r, r ∈ orows -> r ∈ frows) as Hsub.
    { intros r Hr. by apply elem_of_kept in Hr as [? _]. }
    destruct (decide (orows = [])) as [Hnil|Hne'].
    { rewrite Hnil. cbn [map]. by rewrite last_cell_empty. }
    rewrite last_cell_nonempty, (rerun_filtered_candidate_arr known avail_in n orows).
    + rewrite fixed_loop_2D by done.
      cbn [mbind Py.result_bind fmap Py.result_fmap snd np.tolist]. f_equal.
      apply foldl_keep_all. intros r f Hr Hf.
      apply elem_of_foldl_keep in Hr as [_ Hr]. by apply Hr.
    + by apply StronglySorted_foldl_keep.
    + apply Forall_forall. intros r Hr%Hsub. by eapply Forall_forall in Hall.
    + apply Forall_forall. intros r Hr%Hsub. by eapply Forall_forall in Hlen.
    + done.
    + rewrite tolist_filtered_candidate_arr, rerun_rows; [done| |].
      * by apply StronglySorted_foldl_keep.
      * apply Forall_forall. intros r Hr%Hsub. by eapply Forall_forall in Hall.
  - intros printed a [= <- <-]. cbn [printed_words].
    rewrite last_cell_nonempty,
      (rerun_filtered_candidate_arr known avail_in n frows) by
        (rewrite ?tolist_filtered_candidate_arr, ?rerun_rows; done).
    rewrite fixed_loop_2D by done.
    cbn [mbind Py.result_bind np.tolist]. by eexists.
Qed.

Lemma C10_candidate_filter_idempotent_witness :
  Forall (fun w => String.length w = 5) Examples.candidate_words /\
  Notebook.candidate_filter Examples.known_letters_loc Examples.avail_letters
    Examples.candidate_words
  = Ok [Py.chars "betid"; Py.chars "fetid"; Py.chars "teiid"] /\
  Notebook.candidate_filter Examples.known_letters_loc Examples.avail_letters
    (map Py.join_chars [Py.chars "betid"; Py.chars "fetid"; Py.chars "teiid"])
  = Ok [Py.chars "betid"; Py.chars "fetid"; Py.chars "teiid"].
Proof.
  assert (Forall (fun w => String.length w = 5) Examples.candidate_words) as Hlen
    by (repeat constructor).
  assert (Notebook.candidate_filter Examples.known_letters_loc Examples.avail_letters
            Examples.candidate_words
          = Ok [Py.chars "betid"; Py.chars "fetid"; Py.chars "teiid"]) as Hrun
    by (vm_compute; reflexivity).
  split; [exact Hlen|]. split; [exact Hrun|].
  exact (proj1 (C10_candidate_filter_idempotent _ _ 5 _ Hlen) _ Hrun).
Defined.

(** ** The fixed-position filter *)

(** The loop of cell 17 does filter the array: when the second branch ends
    normally, every row left in [filtered_candidate_arr] has the letter of
    every fixed constraint in place.  The words that are printed are those of
    the array before the loop. *)
Lemma last_cell_lines (known : list (ascii * Z)) (avail_in : list ascii)
    (cw ws : list string) (a' : np.ndarray) :
  Notebook.last_cell known avail_in cw = Ok (Notebook.Lines ws, a') ->
  ws = map Py.join_chars (np.tolist (Notebook.filtered_candidate_arr known avail_in cw)) /\
  forall r : np.row, r ∈ np.tolist a' ->
    forall (c : ascii) (p : Z), (c, p) ∈ known -> (0 <= p)%Z -> r !! Z.to_nat p = Some c.
Proof.
  destruct (decide (np.tolist (Notebook.filtered_candidate_arr known avail_in cw) = []))
    as [Hnil|Hne].
  - by rewrite last_cell_empty.
  - rewrite last_cell_nonempty by done.
    destruct (Notebook.filtered_candidate_arr known avail_in cw) as [|n rows]; [done|].
    destruct (Notebook.fixed_loop known (np.Arr2D n rows)) as [a''|e] eqn:Hloop; [|done].
    apply fixed_loop_2D_inv in Hloop as [Hrange ->].
    cbn [mbind Py.result_bind np.tolist]. intros [= <- <-]. split; [done|].
    cbn [np.tolist]. intros r Hr. by apply elem_of_kept in Hr as [_ Hr].
Qed.

(** In the draft the loop runs before the rows are joined: every word it
    prints has the letter of every fixed constraint in place. *)
Lemma draft_words_fixed (known : list (ascii * Z)) (cw ws : list string) :
  Draft.list_candidate_words known cw = Ok ws ->
  forall w : string, w ∈ ws ->
    forall (c : ascii) (p : Z),
      (c, p) ∈ known -> (0 <= p)%Z -> String.get (Z.to_nat p) w = Some c.
Proof.
  unfold Draft.list_candidate_words.
  destruct (Draft.candidate_arr cw) as [|n rows] eqn:Harr.
  - destruct (Notebook.fixed_loop known np.Empty1D) as [a'|e] eqn:Hloop; [|done].
    assert (a' = np.Empty1D) as ->.
    { unfold Notebook.fixed_loop in Hloop.
      destruct (Notebook.fixed_letters known); simpl in Hloop; by simplify_eq. }
    cbn [mbind Py.result_bind np.tolist map]. intros [= <-] w Hw. by apply elem_of_nil in Hw.
  - destruct (Notebook.fixed_loop known (np.Arr2D n rows)) as [a'|e] eqn:Hloop; [|done].
    apply fixed_loop_2D_inv in Hloop as [Hrange ->].
    cbn [mbind Py.result_bind np.tolist]. intros [= <-] w (r & -> & Hr)%map_elem_of c p Hin Hp.
    rewrite get_join_chars. apply elem_of_kept in Hr as [_ Hr]. by apply Hr.
Qed.

(** C1 fails on the notebook: with the parameters of cell 3 and a service
    that answers [?etid] with [fetid] and [bidet], the run prints [bidet],
    whose character at the fixed position 1 is [i] and not [e].  The loop has
    removed the row from the array, which holds [fetid] alone, but the list
    that is printed was built before the loop. *)
Theorem C1_printed_words_not_filtered :
  ("e"%char, 1%Z) ∈ Notebook.fixed_letters Examples.known_letters_loc /\
  Notebook.run 5 Examples.known_letters_loc Examples.avail_letters Examples.lookup_stray
    = Ok (Notebook.Lines ["bidet"; "fetid"]) /\
  String.get 1 "bidet" = Some "i"%char /\
  Notebook.candidate_filter Examples.known_letters_loc Examples.avail_letters
    ["fetid"; "bidet"] = Ok [Py.chars "fetid"].
Proof.
  split; [|repeat split; vm_compute; reflexivity].
  apply elem_of_fixed_letters. split; [|lia]. by left.
Qed.

(** The same on an input with two fixed constraints on position 1 and a
    service whose answer matches the pattern it is asked: the run prints
    [abbey], whose character at position 1 is not the [a] of the first
    constraint. *)
Lemma C1_conflicting_input :
  Notebook.known_patterns 5 Examples.conflicting_letters_loc = Ok ["?b???"] /\
  Notebook.run 5 Examples.conflicting_letters_loc ["e"; "y"]%char Examples.lookup_abbey
    = Ok (Notebook.Lines ["abbey"]) /\
  Notebook.candidate_filter Examples.conflicting_letters_loc ["e"; "y"]%char ["abbey"]
    = Ok [].
Proof. repeat split; vm_compute; reflexivity. Qed.

(** ** The constraint parser *)

(** C2, as the specification states it, fails: the parser returns normally
    on two fixed constraints that give different letters to position 1 (the
    later one is the letter of the pattern), and on a fixed constraint at
    position 7 of a five-letter word (it is in no pattern). *)
Lemma C2_no_constraint_error :
  Spec.conflicting Examples.conflicting_letters_loc /\
  constraint_parser 5 Examples.conflicting_letters_loc [] =
    Ok ([("a"%char, 1%Z); ("b"%char, 1%Z)], [], ["a"; "b"]%char) /\
  Notebook.known_patterns 5 Examples.conflicting_letters_loc = Ok ["?b???"] /\
  Spec.out_of_range 5 Examples.out_of_range_letters_loc /\
  constraint_parser 5 Examples.out_of_range_letters_loc [] =
    Ok ([("a"%char, 7%Z)], [], ["a"%char]) /\
  Notebook.known_patterns 5 Examples.out_of_range_letters_loc = Ok ["?????"].
Proof.
  split; [|split; [|split; [|split; [|split]]]]; try (vm_compute; reflexivity).
  - exists "a"%char, "b"%char, 1%Z. unfold Examples.conflicting_letters_loc.
    split; [by left|]. split; [right; by left|]. split; [lia|done].
  - exists "a"%char, 7%Z. split; [by left|lia].
Qed.

(** C2, amended: the constraint parser returns normally on every input.
    Its fixed constraints are all the constraints with a position that is
    not negative, those in conflict or past the end of the word included, in
    increasing order of position; its floating letters are the letters of the
    constraints with a negative position; its allowed letters are the letters
    entered by the user followed by the letter of every constraint. *)
Theorem C2_parser_total (word_length : nat) (known : list (ascii * Z))
    (avail_in : list ascii) :
  exists (fixed : list (ascii * Z)) (floating allowed_letters : list ascii),
    constraint_parser word_length known avail_in = Ok (fixed, floating, allowed_letters) /\
    (forall (c : ascii) (p : Z), (c, p) ∈ fixed <-> (c, p) ∈ known /\ (0 <= p)%Z) /\
    StronglySorted Spec.by_position fixed /\
    (forall c : ascii, c ∈ floating <-> exists p : Z, (c, p) ∈ known /\ (p < 0)%Z) /\
    allowed_letters = avail_in ++ map fst known.
Proof.
  eexists _, _, _. split; [done|]. split; [|split; [|split; [|done]]].
  - apply elem_of_fixed_letters.
  - apply StronglySorted_sorted.
  - intros c. unfold Notebook.unknown_letters. rewrite map_elem_of. split.
    + intros ([c' p] & -> & [? ?]%elem_of_sorted%list_elem_of_filter). by exists p.
    + intros (p & Hin & Hp). exists (c, p). split; [done|].
      by apply elem_of_sorted, list_elem_of_filter.
Qed.

Lemma C2_parser_total_witness :
  exists (fixed : list (ascii * Z)) (floating allowed_letters : list ascii),
    constraint_parser 5 Examples.conflicting_letters_loc [] =
      Ok (fixed, floating, allowed_letters) /\
    ("a"%char, 1%Z) ∈ fixed /\ ("b"%char, 1%Z) ∈ fixed.
Proof.
  destruct (C2_parser_total 5 Examples.conflicting_letters_loc [])
    as (fixed & floating & al & Hp & Hfixed & _ & _).
  exists fixed, floating, al. split; [exact Hp|].
  split; apply Hfixed; (split; [|lia]).
  - apply list_elem_of_here.
  - apply list_elem_of_further, list_elem_of_here.
Defined.

(** * Further properties of the notebooks *)

(** ** The enumeration of the arrangements *)

Lemma NoDup_map_inj_on {A B : Type} (f : A -> B) (l : list A) :
  NoDup l -> (forall x y, x ∈ l -> y ∈ l -> f x = f y -> x = y) -> NoDup (map f l).
Proof.
  induction 1 as [|x l Hx Hnd IH]; intros Hinj; simpl; constructor.
  - intros (y & Heq & Hy)%map_elem_of.
    apply Hinj in Heq; [by subst|by left|by right].
  - apply IH. intros y z Hy Hz. apply Hinj; by right.
Qed.

Lemma filter_ext_in {A : Type} (P Q : A -> Prop) `{!forall x, Decision (P x)}
    `{!forall x, Decision (Q x)} (l : list A) :
  (forall x, x ∈ l -> P x <-> Q x) -> filter P l = filter Q l.
Proof.
  induction l as [|x l IH]; intros Hext; [done|].
  rewrite !filter_cons, IH by (intros y Hy; apply Hext; by right).
  pose proof (Hext x ltac:(by left)). by repeat case_decide; try tauto.
Qed.

Section enumeration_facts.

Context {A : Type}.
Implicit Types (l c p : list A).

Lemma combinations_complete l c :
  c `sublist_of` l -> c ∈ itertools.combinations l (length c).
Proof.
  induction 1 as [|x c l Hsub IH|x c l Hsub IH]; simpl.
  - by left.
  - apply elem_of_app. left. apply map_elem_of. by exists c.
  - destruct c as [|y c]; simpl in *; [by left|].
    apply elem_of_app. by right.
Qed.

Lemma selects_complete l1 x l2 :
  (x, l1 ++ l2) ∈ itertools.selects (l1 ++ x :: l2).
Proof.
  induction l1 as [|y l1 IH]; simpl; [by left|].
  right. apply map_elem_of. by exists (x, l1 ++ l2).
Qed.

Lemma permutations_of_length_complete n l p :
  length l = n -> p ≡ₚ l -> p ∈ itertools.permutations_of_length n l.
Proof.
  revert l p. induction n as [|n IH]; intros l p Hlen Hperm; simpl.
  - destruct l; [|done]. apply Permutation_nil_r in Hperm as ->. by left.
  - destruct p as [|x p].
    { symmetry in Hperm. apply Permutation_nil_r in Hperm. by subst. }
    assert (x ∈ l) as (l1 & l2 & ->)%list_elem_of_split
      by (rewrite <- Hperm; by left).
    rewrite <- Permutation_middle in Hperm. apply Permutation_cons_inv in Hperm.
    apply list_elem_of_In, in_flat_map. exists (x, l1 ++ l2). split.
    + apply list_elem_of_In, selects_complete.
    + apply list_elem_of_In, map_elem_of. exists p. split; [done|].
      apply IH; [|done]. simpl. rewrite !length_app in *. simpl in *. lia.
Qed.

Lemma permutations_complete l p : p ≡ₚ l -> p ∈ itertools.permutations l.
Proof. by apply permutations_of_length_complete. Qed.

Lemma NoDup_combinations l r : NoDup l -> NoDup (itertools.combinations l r).
Proof.
  intros Hnd. revert r.
  induction Hnd as [|x l Hx Hnd IH]; intros [|r]; simpl;
    try (by apply NoDup_singleton); [constructor|].
  apply NoDup_app. split; [|split].
  - apply NoDup_map_inj_on; [apply IH|]. by intros c1 c2 _ _ [= ->].
  - intros c (c' & -> & _)%map_elem_of Hc.
    apply combinations_sublist in Hc as [Hsub _].
    apply Hx. eapply elem_of_sublist; [|done]. by left.
  - apply IH.
Qed.

Lemma map_fst_selects l : map fst (itertools.selects l) = l.
Proof.
  induction l as [|x l IH]; simpl; [done|].
  f_equal. rewrite map_map. etrans; [|exact IH]. by apply map_ext.
Qed.

Lemma NoDup_flat_map_heads (F : list A -> list (list A)) (sl : list (A * list A)) :
  NoDup (map fst sl) ->
  (forall s, s ∈ sl -> NoDup (F s.2)) ->
  NoDup (flat_map (fun s => map (cons s.1) (F s.2)) sl).
Proof.
  induction sl as [|s sl IH]; simpl; [constructor|].
  rewrite NoDup_cons. intros [Hs Hnd] HF.
  apply NoDup_app. split; [|split].
  - apply NoDup_map_inj_on; [apply HF; by left|]. by intros c1 c2 _ _ [= ->].
  - intros p (p' & -> & _)%map_elem_of Hp.
    apply list_elem_of_In, in_flat_map in Hp as (s' & Hs'%list_elem_of_In & Hp).
    apply list_elem_of_In, map_elem_of in Hp as (p'' & [= Heq _] & _).
    apply Hs, map_elem_of. by exists s'.
  - apply IH; [done|]. intros s' Hs'. apply HF. by right.
Qed.

Lemma NoDup_permutations_of_length n l :
  length l = n -> NoDup l -> NoDup (itertools.permutations_of_length n l).
Proof.
  revert l. induction n as [|n IH]; intros l Hlen Hnd; simpl.
  - apply NoDup_singleton.
  - apply (NoDup_flat_map_heads (itertools.permutations_of_length n)).
    + by rewrite map_fst_selects.
    + intros [x rest] Hs. simpl.
      apply selects_perm in Hs.
      apply IH.
      * apply Permutation_length in Hs. simpl in *. lia.
      * rewrite <- Hs in Hnd. by apply NoDup_cons in Hnd as [_ ?].
Qed.

Lemma NoDup_permutations l : NoDup l -> NoDup (itertools.permutations l).
Proof. by apply NoDup_permutations_of_length. Qed.

Context `{!EqDecision A}.

(** A subsequence of a duplicate-free list is determined by its elements. *)
Lemma filter_elem_of_sublist l c :
  NoDup l -> c `sublist_of` l -> filter (fun x => x ∈ c) l = c.
Proof.
  intros Hnd Hsub. induction Hsub as [|x c l Hsub IH|x c l Hsub IH].
  - done.
  - apply NoDup_cons in Hnd as [Hx Hnd].
    rewrite filter_cons_True by (by left). f_equal.
    etrans; [|apply (IH Hnd)]. apply filter_ext_in.
    intros y Hy. rewrite elem_of_cons. split; [|by right].
    intros [->|?]; done.
  - apply NoDup_cons in Hnd as [Hx Hnd].
    rewrite filter_cons_False; [by apply IH|].
    intros Hin. apply Hx. by eapply elem_of_sublist.
Qed.

Lemma NoDup_concat_permutations l (combos : list (list A)) :
  NoDup l -> NoDup combos -> (forall c, c ∈ combos -> c `sublist_of` l) ->
  NoDup (concat (map itertools.permutations combos)).
Proof.
  intros Hl. induction 1 as [|c combos Hc Hnd IH]; intros Hsub; simpl; [constructor|].
  apply NoDup_app. split; [|split].
  - apply NoDup_permutations. eapply sublist_NoDup; [done|]. apply Hsub. by left.
  - intros p Hp (ps & (c' & -> & Hc')%map_elem_of & Hp')%concat_elem_of.
    apply permutations_perm in Hp, Hp'.
    assert (c = c') as ->; [|done].
    rewrite <- (filter_elem_of_sublist l c), <- (filter_elem_of_sublist l c');
      [|done|apply Hsub; by right|done|apply Hsub; by left].
    apply filter_ext_in. intros x _. by rewrite <- Hp, <- Hp'.
  - apply IH. intros c' Hc'. apply Hsub. by right.
Qed.

End enumeration_facts.

Section arrangement_facts.

Variable word_length : nat.
Variable known : list (ascii * Z).

Lemma arrangement_visited (pos : list nat) :
  length pos = length (Notebook.unknown_letters known) ->
  NoDup pos ->
  (forall i, i ∈ pos -> i < word_length /\ Spec.open_position known i) ->
  pos ∈ concat (Notebook.perms_unknown_combos word_length known).
Proof.
  intros Hlen Hnd Hopen.
  set (c := filter (fun i => i ∈ pos) (Notebook.unknown_pos word_length known)).
  assert (c ≡ₚ pos) as Hperm.
  { apply NoDup_Permutation; [apply NoDup_filter, NoDup_unknown_pos|done|].
    intros i. unfold c. rewrite list_elem_of_filter, elem_of_unknown_pos.
    split; [tauto|]. intros Hi. split; [done|by apply Hopen]. }
  apply concat_elem_of. exists (itertools.permutations c). split.
  - unfold Notebook.perms_unknown_combos, Notebook.unknown_combos.
    apply map_elem_of. exists c. split; [done|].
    rewrite <- Hlen, <- Hperm. apply combinations_complete, sublist_filter.
  - by apply permutations_complete.
Qed.

Lemma NoDup_perms_unknown_combos :
  NoDup (concat (Notebook.perms_unknown_combos word_length known)).
Proof.
  unfold Notebook.perms_unknown_combos, Notebook.unknown_combos.
  apply (NoDup_concat_permutations (Notebook.unknown_pos word_length known)).
  - apply NoDup_unknown_pos.
  - apply NoDup_combinations, NoDup_unknown_pos.
  - by intros c [? _]%combinations_sublist.
Qed.

End arrangement_facts.

(** X1: the loops of cell 11 visit exactly the arrangements of
    [len(unknown_letters)] pairwise distinct open positions, each of them
    once. *)
Theorem X1_arrangements_exact (word_length : nat) (known : list (ascii * Z)) :
  NoDup (concat (Notebook.perms_unknown_combos word_length known)) /\
  forall pos : list nat,
    pos ∈ concat (Notebook.perms_unknown_combos word_length known) <->
    length pos = length (Notebook.unknown_letters known) /\
    NoDup pos /\
    (forall i : nat, i ∈ pos -> i < word_length /\ Spec.open_position known i).
Proof.
  split; [apply NoDup_perms_unknown_combos|].
  intros pos. split; [apply perms_unknown_combos_spec|].
  intros (? & ? & ?). by apply arrangement_visited.
Qed.

Lemma X1_arrangements_exact_witness :
  [3; 0] ∈ concat (Notebook.perms_unknown_combos 5 Examples.known_letters_loc).
Proof.
  apply (proj2 (X1_arrangements_exact 5 Examples.known_letters_loc)).
  split; [reflexivity|]. split.
  - apply NoDup_cons. split; [|apply NoDup_singleton].
    intros H. apply list_elem_of_singleton in H. discriminate H.
  - intros i Hi. apply (elem_of_unknown_pos 5 Examples.known_letters_loc).
    vm_compute. elem_of_cases Hi.
    + do 2 apply list_elem_of_further. apply list_elem_of_here.
    + apply list_elem_of_here.
Defined.

(** ** The patterns of the arrangements *)

Section written_facts.

Variable word_length : nat.
Variable known : list (ascii * Z).

Lemma written_at (pos : list nat) (j i : nat) :
  length pos = length (Notebook.unknown_letters known) ->
  NoDup pos ->
  (forall i', i' ∈ pos -> i' < word_length) ->
  pos !! j = Some i ->
  written word_length known pos !! i = Notebook.unknown_letters known !! j.
Proof.
  intros Hlen Hnd Hlt Hj.
  destruct (lookup_lt_is_Some_2 (Notebook.unknown_letters known) j) as [c Hc].
  { rewrite <- Hlen. by eapply lookup_lt_Some. }
  rewrite Hc. unfold written. apply (foldl_write_at _ _ j).
  - rewrite fst_zip by lia. done.
  - by apply lookup_zip_Some.
  - rewrite length_known_pattern. apply Hlt. by eapply list_elem_of_lookup_2.
Qed.

Lemma written_other (pos : list nat) (i : nat) :
  length pos = length (Notebook.unknown_letters known) ->
  i ∉ pos ->
  written word_length known pos !! i = Notebook.known_pattern word_length known !! i.
Proof.
  intros Hlen Hi. unfold written. apply foldl_write_other.
  by rewrite fst_zip by lia.
Qed.

Lemma length_written (pos : list nat) :
  length (written word_length known pos) = word_length.
Proof. unfold written. by rewrite length_foldl_write, length_known_pattern. Qed.

Lemma known_pattern_open (i : nat) :
  i < word_length -> Spec.open_position known i ->
  Notebook.known_pattern word_length known !! i = Some "?"%char.
Proof.
  intros Hi Hopen. rewrite lookup_known_pattern by done.
  by rewrite (proj2 (dict_letters_None known i)).
Qed.

(** Two arrangements with the same pattern are equal, when the floating
    letters are pairwise distinct and none of them is the wildcard. *)
Lemma written_inj_step (p1 p2 : list nat) (j i : nat) :
  NoDup (Notebook.unknown_letters known) ->
  "?"%char ∉ Notebook.unknown_letters known ->
  p1 ∈ concat (Notebook.perms_unknown_combos word_length known) ->
  p2 ∈ concat (Notebook.perms_unknown_combos word_length known) ->
  written word_length known p1 = written word_length known p2 ->
  p1 !! j = Some i -> p2 !! j = Some i.
Proof.
  intros Hnd Hq (Hlen1 & Hnd1 & Hopen1)%perms_unknown_combos_spec
         (Hlen2 & Hnd2 & Hopen2)%perms_unknown_combos_spec Heq Hj.
  destruct (lookup_lt_is_Some_2 (Notebook.unknown_letters known) j) as [c Hc].
  { rewrite <- Hlen1. by eapply lookup_lt_Some. }
  assert (written word_length known p2 !! i = Some c) as Hw.
  { rewrite <- Heq, <- Hc. apply written_at; try done. intros ??. by apply Hopen1. }
  destruct (decide (i ∈ p2)) as [Hin|Hnotin].
  - apply list_elem_of_lookup in Hin as [j' Hj'].
    rewrite (written_at p2 j' i) in Hw; try done; [|intros ??; by apply Hopen2].
    by rewrite (NoDup_lookup _ j j' c Hnd Hc Hw).
  - rewrite written_other in Hw by done.
    rewrite known_pattern_open in Hw; [|by apply Hopen1; eapply list_elem_of_lookup_2..].
    injection Hw as <-. destruct Hq. by eapply list_elem_of_lookup_2.
Qed.

End written_facts.

(** X2: every arrangement of the floating letters on pairwise distinct open
    positions has its pattern among the patterns of cell 11: a string of
    [word_length] characters with the [j]-th floating letter at the [j]-th
    position of the arrangement and the character of [known_pattern] at
    every other position. *)
Theorem X2_arrangement_has_pattern (word_length : nat) (known : list (ascii * Z))
    (pos : list nat) :
  length pos = length (Notebook.unknown_letters known) ->
  NoDup pos ->
  (forall i : nat, i ∈ pos -> i < word_length /\ Spec.open_position known i) ->
  exists (patterns : list string) (pat : string),
    Notebook.known_patterns word_length known = Ok patterns /\
    pat ∈ patterns /\
    String.length pat = word_length /\
    (forall j i : nat,
        pos !! j = Some i -> String.get i pat = Notebook.unknown_letters known !! j) /\
    (forall i : nat,
        i ∉ pos -> String.get i pat = Notebook.known_pattern word_length known !! i).
Proof.
  intros Hlen Hnd Hopen.
  eexists _, (Py.join_chars (written word_length known pos)).
  split; [apply known_patterns_ok|]. split; [|split; [|split]].
  - apply map_elem_of. exists pos. split; [done|]. by apply arrangement_visited.
  - by rewrite length_join_chars, length_written.
  - intros j i Hj. rewrite get_join_chars. apply written_at; try done.
    intros ??. by apply Hopen.
  - intros i Hi. rewrite get_join_chars. by apply written_other.
Qed.

Lemma X2_arrangement_has_pattern_witness :
  exists (patterns : list string) (pat : string),
    Notebook.known_patterns 5 Examples.known_letters_loc = Ok patterns /\
    pat ∈ patterns /\
    String.get 3 pat = Some "i"%char /\ String.get 0 pat = Some "t"%char.
Proof.
  destruct (X2_arrangement_has_pattern 5 Examples.known_letters_loc [3; 0])
    as (ps & pat & Hps & Hpat & _ & Hat & _).
  - reflexivity.
  - apply NoDup_cons. split; [|apply NoDup_singleton].
    intros H. apply list_elem_of_singleton in H. discriminate H.
  - intros i Hi. apply (elem_of_unknown_pos 5 Examples.known_letters_loc).
    vm_compute. elem_of_cases Hi.
    + do 2 apply list_elem_of_further. apply list_elem_of_here.
    + apply list_elem_of_here.
  - exists ps, pat. split; [exact Hps|]. split; [exact Hpat|].
    split; [exact (Hat 0 3 eq_refl)|exact (Hat 1 0 eq_refl)].
Defined.

(** X3: when the floating letters are pairwise distinct and none of them is
    the wildcard character, no pattern is produced twice. *)
Theorem X3_patterns_distinct (word_length : nat) (known : list (ascii * Z)) :
  NoDup (Notebook.unknown_letters known) ->
  "?"%char ∉ Notebook.unknown_letters known ->
  exists patterns : list string,
    Notebook.known_patterns word_length known = Ok patterns /\ NoDup patterns.
Proof.
  intros Hnd Hq. eexists. split; [apply known_patterns_ok|].
  apply NoDup_map_inj_on; [apply NoDup_perms_unknown_combos|].
  intros p1 p2 H1 H2 Heq.
  apply (f_equal Py.chars) in Heq. rewrite !chars_join_chars in Heq.
  pose proof (proj1 (perms_unknown_combos_spec _ _ _ H1)) as Hlen1.
  pose proof (proj1 (perms_unknown_combos_spec _ _ _ H2)) as Hlen2.
  apply list_eq. intros j.
  destruct (p1 !! j) as [i|] eqn:E1.
  - symmetry. by apply (written_inj_step word_length known p1 p2 j i).
  - destruct (p2 !! j) as [i|] eqn:E2; [|done].
    symmetry in Heq. by rewrite (written_inj_step word_length known p2 p1 j i) in E1.
Qed.

Lemma X3_patterns_distinct_witness :
  exists patterns : list string,
    Notebook.known_patterns 5 Examples.known_letters_loc = Ok patterns /\ NoDup patterns.
Proof.
  apply X3_patterns_distinct.
  - vm_compute. apply NoDup_cons. split; [|apply NoDup_singleton].
    intros H. apply list_elem_of_singleton in H. discriminate H.
  - vm_compute. intros H. elem_of_cases H.
Defined.

(** ** The order of the constraints *)

Lemma filter_none {A : Type} (P : A -> Prop) `{!forall x, Decision (P x)} (l : list A) :
  (forall x, x ∈ l -> ~ P x) -> filter P l = [].
Proof.
  induction l as [|x l IH]; intros Hno; [done|].
  rewrite filter_cons_False by (apply Hno; by left).
  apply IH. intros y Hy. apply Hno. by right.
Qed.

Section sort_facts.

Context {A : Type}.
Variable key : A -> Z.

Lemma insert_by_filter_key (k : Z) (x : A) (l : list A) :
  filter (fun y => key y = k) (Py.insert_by key x l) =
  filter (fun y => key y = k) (x :: l).
Proof.
  induction l as [|y l IH]; simpl; [done|].
  case_decide as Hle; [done|].
  rewrite (filter_cons _ y), IH, !filter_cons.
  repeat case_decide; try done. lia.
Qed.

(** [sorted] is stable: the elements of one key keep their order. *)
Lemma sorted_filter_key (k : Z) (l : list A) :
  filter (fun y => key y = k) (Py.sorted l key) = filter (fun y => key y = k) l.
Proof.
  unfold Py.sorted. induction l as [|x l IH]; simpl; [done|].
  by rewrite insert_by_filter_key, !filter_cons, IH.
Qed.

Lemma sorted_same_key (l : list A) :
  (forall x y, x ∈ l -> y ∈ l -> key x = key y) -> Py.sorted l key = l.
Proof.
  unfold Py.sorted. induction l as [|x l IH]; intros Hkey; simpl; [done|].
  rewrite IH by (intros y z Hy Hz; apply Hkey; by right).
  destruct l as [|y l]; simpl; [done|].
  rewrite decide_True; [done|].
  rewrite (Hkey x y); [lia|by left|right; by left].
Qed.

End sort_facts.

Section dict_facts.

Variable word_length : nat.
Variable known : list (ascii * Z).

Lemma foldl_put_last (l : list (ascii * Z)) (d : gmap Z ascii) (p : Z) :
  foldl (fun (d : gmap Z ascii) (x : ascii * Z) => <[x.2 := x.1]> d) d l !! p =
  match last (filter (fun x : ascii * Z => x.2 = p) l) with
  | Some x => Some x.1
  | None => d !! p
  end.
Proof.
  revert d. induction l as [|[c' p'] l IH]; intros d; simpl; [done|].
  rewrite IH, filter_cons. simpl. case_decide as Hp.
  - subst p'. rewrite last_cons, lookup_insert_eq.
    by destruct (last (filter (fun x : ascii * Z => x.2 = p) l)).
  - by rewrite lookup_insert_ne.
Qed.

(** The letter of [dict_letters] at a position is the letter of the last
    constraint of the input on that position. *)
Lemma dict_letters_last (p : Z) :
  (0 <= p)%Z ->
  Notebook.dict_letters known !! p =
  fst <$> last (filter (fun x : ascii * Z => x.2 = p) known).
Proof.
  intros Hp. unfold Notebook.dict_letters, Notebook.fixed_letters.
  rewrite foldl_put_last, lookup_empty.
  rewrite (sorted_filter_key snd p), list_filter_filter_l.
  - by destruct (last _).
  - intros [c' p']. simpl. lia.
Qed.

End dict_facts.

Lemma dict_letters_in_range (word_length : nat) (known : list (ascii * Z)) (i : nat) :
  i < word_length ->
  Notebook.dict_letters (filter (fun l : ascii * Z => (l.2 < Z.of_nat word_length)%Z) known)
    !! Z.of_nat i
  = Notebook.dict_letters known !! Z.of_nat i.
Proof.
  intros Hi. rewrite !dict_letters_last by lia.
  rewrite list_filter_filter_l; [done|]. intros [c p]. simpl. lia.
Qed.

(** X4: [fixed_letters] holds every constraint with a non-negative position,
    as many times as the input has it, in increasing order of position, and
    the constraints on one position in the order of the input. *)
Theorem X4_fixed_letters_stable (known : list (ascii * Z)) :
  Notebook.fixed_letters known ≡ₚ filter (fun l : ascii * Z => (0 <= l.2)%Z) known /\
  StronglySorted Spec.by_position (Notebook.fixed_letters known) /\
  forall p : Z,
    filter (fun l : ascii * Z => l.2 = p) (Notebook.fixed_letters known) =
    filter (fun l : ascii * Z => l.2 = p)
           (filter (fun l : ascii * Z => (0 <= l.2)%Z) known).
Proof.
  unfold Notebook.fixed_letters. split; [apply sorted_perm|].
  split; [apply StronglySorted_sorted|].
  intros p. apply (sorted_filter_key snd).
Qed.

(** X5: when several constraints are on one non-negative position, the
    letter of the last of them in the input is the letter of [dict_letters]
    at that position and, inside the word, the character of [known_pattern]. *)
Theorem X5_last_constraint_wins (word_length : nat) (known l1 l2 : list (ascii * Z))
    (c : ascii) (p : Z) :
  known = l1 ++ (c, p) :: l2 ->
  (0 <= p)%Z ->
  (forall c' : ascii, (c', p) ∉ l2) ->
  Notebook.dict_letters known !! p = Some c /\
  ((p < Z.of_nat word_length)%Z ->
   Notebook.known_pattern word_length known !! Z.to_nat p = Some c).
Proof.
  intros -> Hp Hlast.
  assert (Notebook.dict_letters (l1 ++ (c, p) :: l2) !! p = Some c) as Hdict.
  { rewrite dict_letters_last by done.
    rewrite filter_app, filter_cons_True by done.
    rewrite (filter_none _ l2).
    - by rewrite last_snoc.
    - intros [c' p'] Hin. simpl. intros ->. by apply (Hlast c'). }
  split; [done|]. intros Hlt.
  rewrite lookup_known_pattern by lia. by rewrite Z2Nat.id, Hdict.
Qed.

Lemma X5_last_constraint_wins_witness :
  Notebook.dict_letters Examples.conflicting_letters_loc !! 1%Z = Some "b"%char /\
  Notebook.known_pattern 5 Examples.conflicting_letters_loc !! 1 = Some "b"%char.
Proof.
  destruct (X5_last_constraint_wins 5 Examples.conflicting_letters_loc
              [("a"%char, 1%Z)] [] "b"%char 1%Z) as [H1 H2].
  - reflexivity.
  - lia.
  - intros c' H. by apply elem_of_nil in H.
  - split; [exact H1|]. apply H2. lia.
Defined.

(** X6: when all the constraints with a negative position carry the same
    position (the sentinel [-1]), [unknown_letters] lists their letters in
    the order of the input. *)
Theorem X6_unknown_letters_input_order (known : list (ascii * Z)) :
  (forall (c1 c2 : ascii) (p1 p2 : Z),
      (c1, p1) ∈ known -> (c2, p2) ∈ known -> (p1 < 0)%Z -> (p2 < 0)%Z -> p1 = p2) ->
  Notebook.unknown_letters known =
  map fst (filter (fun l : ascii * Z => (l.2 < 0)%Z) known).
Proof.
  intros Hsame. unfold Notebook.unknown_letters. f_equal.
  apply sorted_same_key.
  intros [c1 p1] [c2 p2] [? ?]%list_elem_of_filter [? ?]%list_elem_of_filter.
  simpl in *. by eapply Hsame.
Qed.

Lemma X6_unknown_letters_input_order_witness :
  Notebook.unknown_letters Examples.draft_known_letters_loc = ["a"; "l"]%char.
Proof.
  refine (X6_unknown_letters_input_order Examples.draft_known_letters_loc _).
  intros c1 c2 p1 p2 H1 H2 Hp1 Hp2. unfold Examples.draft_known_letters_loc in H1, H2.
  elem_of_cases H1; elem_of_cases H2; done || lia.
Defined.

(** With different negative positions the letters are ordered by position. *)
Example unknown_letters_by_position :
  Notebook.unknown_letters [("a"%char, (-1)%Z); ("b"%char, (-2)%Z)] = ["b"; "a"]%char.
Proof. reflexivity. Qed.

(** X7: a fixed constraint at or past [word_length] has no effect on the
    patterns: they are those of the input without it. *)
Theorem X7_out_of_range_ignored (word_length : nat) (known : list (ascii * Z)) :
  Notebook.known_patterns word_length
    (filter (fun l : ascii * Z => (l.2 < Z.of_nat word_length)%Z) known)
  = Notebook.known_patterns word_length known.
Proof.
  set (known' := filter (fun l : ascii * Z => (l.2 < Z.of_nat word_length)%Z) known).
  assert (Notebook.known_pattern word_length known' =
          Notebook.known_pattern word_length known) as Hpat.
  { unfold Notebook.known_pattern, Py.range, known'. apply map_ext_in.
    intros i Hi%in_seq. by rewrite dict_letters_in_range by lia. }
  assert (Notebook.unknown_pos word_length known' =
          Notebook.unknown_pos word_length known) as Hpos.
  { unfold Notebook.unknown_pos, Py.range, known'. apply filter_ext_in.
    intros i Hi%elem_of_seq. by rewrite dict_letters_in_range by lia. }
  assert (Notebook.unknown_letters known' = Notebook.unknown_letters known) as Hlet.
  { unfold Notebook.unknown_letters, known'. do 2 f_equal.
    apply list_filter_filter_l. intros [c p]. simpl. lia. }
  unfold Notebook.known_patterns, Notebook.tmp_pattern, Notebook.perms_unknown_combos,
    Notebook.unknown_combos.
  by rewrite Hpat, Hpos, Hlet.
Qed.

Lemma combinations_0 {A : Type} (l : list A) : itertools.combinations l 0 = [[]].
Proof. by destruct l. Qed.

(** X8: without floating letters there is exactly one pattern, the
    characters of [known_pattern]. *)
Theorem X8_no_floating_letters (word_length : nat) (known : list (ascii * Z)) :
  (forall (c : ascii) (p : Z), (c, p) ∈ known -> (0 <= p)%Z) ->
  Notebook.known_patterns word_length known =
  Ok [Py.join_chars (Notebook.known_pattern word_length known)].
Proof.
  intros Hfixed.
  assert (Notebook.unknown_letters known = []) as Hlet.
  { unfold Notebook.unknown_letters. rewrite filter_none; [done|].
    intros [c p] Hin%Hfixed. simpl. lia. }
  unfold Notebook.known_patterns, Notebook.tmp_pattern, Notebook.perms_unknown_combos,
    Notebook.unknown_combos.
  rewrite Hlet. cbn [length]. rewrite combinations_0. reflexivity.
Qed.

Lemma X8_no_floating_letters_witness :
  Notebook.known_patterns 5 [("e"%char, 1%Z); ("d"%char, 4%Z)] = Ok ["?e??d"].
Proof.
  refine (X8_no_floating_letters 5 [("e"%char, 1%Z); ("d"%char, 4%Z)] _).
  intros c p H. elem_of_cases H; lia.
Defined.

(** ** The lookup loop *)

Section lookup_facts.

Variable word_length : nat.
Variable lookup : string -> result (list string).

Lemma lookup_loop_ok (ans : string -> list string) (patterns acc : list string) :
  (forall p, p ∈ patterns -> lookup p = Ok (ans p)) ->
  Notebook.lookup_loop word_length lookup patterns acc =
  Ok (acc ++ filter (fun w : string => String.length w = word_length)
                    (concat (map ans patterns))).
Proof.
  revert acc. induction patterns as [|p patterns IH]; intros acc Hans; simpl.
  - by rewrite app_nil_r.
  - rewrite (Hans p) by left. rewrite bind_Ok, filter_app.
    assert (forall q, q ∈ patterns -> lookup q = Ok (ans q)) as Hans'
      by (intros q Hq; apply Hans; by right).
    unfold Notebook.good_words. case_decide as Hlen.
    + by rewrite IH, <- (assoc_L (++)).
    + rewrite IH by done.
      destruct (filter _ (ans p)); [done|simpl in Hlen; lia].
Qed.

Lemma lookup_loop_raise (e : exn) (ps1 ps2 acc : list string) (p : string) :
  (forall q, q ∈ ps1 -> exists ws, lookup q = Ok ws) ->
  lookup p = Raise e ->
  Notebook.lookup_loop word_length lookup (ps1 ++ p :: ps2) acc = Raise e.
Proof.
  revert acc. induction ps1 as [|q ps1 IH]; intros acc Hok Hp; simpl.
  - by rewrite Hp.
  - destruct (Hok q) as [ws ->]; [by left|]. rewrite bind_Ok.
    case_decide; apply IH; try done; intros q' Hq'; apply Hok; by right.
Qed.

Lemma lookup_loop_elem_of (patterns acc cw : list string) (w : string) :
  Notebook.lookup_loop word_length lookup patterns acc = Ok cw ->
  w ∈ cw ->
  w ∈ acc \/
  exists (p : string) (ws : list string), p ∈ patterns /\ lookup p = Ok ws /\ w ∈ ws.
Proof.
  revert acc. induction patterns as [|p patterns IH]; intros acc; simpl.
  - intros [= ->] Hw. by left.
  - destruct (lookup p) as [ws|e] eqn:Hp; [|done]. rewrite bind_Ok.
    assert (forall acc',
      Notebook.lookup_loop word_length lookup patterns acc' = Ok cw -> w ∈ cw ->
      (forall w', w' ∈ acc' -> w' ∈ acc \/ w' ∈ ws) ->
      w ∈ acc \/ exists p' ws', p' ∈ p :: patterns /\ lookup p' = Ok ws' /\ w ∈ ws')
      as Hstep.
    { intros acc' Hloop Hw Hacc'.
      destruct (IH acc' Hloop Hw) as [[?|?]%Hacc'|(p' & ws' & ? & ? & ?)].
      - by left.
      - right. exists p, ws. split; [by left|done].
      - right. exists p', ws'. split; [by right|done]. }
    case_decide; intros Hloop Hw; eapply Hstep; try done.
    + intros w' [?|Hw']%elem_of_app; [by left|right].
      unfold Notebook.good_words in Hw'. by apply list_elem_of_filter in Hw' as [_ ?].
    + by left.
Qed.

End lookup_facts.

(** X9: when the service answers every pattern, the aggregated words of
    cell 14 are the words of [word_length] characters among all the answers,
    in the order of the patterns and of each answer, repetitions included. *)
Theorem X9_candidate_words_concat (word_length : nat) (known : list (ascii * Z))
    (lookup : string -> result (list string)) (ans : string -> list string)
    (patterns : list string) :
  Notebook.known_patterns word_length known = Ok patterns ->
  (forall p : string, p ∈ patterns -> lookup p = Ok (ans p)) ->
  Notebook.candidate_words word_length known lookup =
  Ok (filter (fun w : string => String.length w = word_length)
             (concat (map ans patterns))).
Proof.
  intros Hps Hans. unfold Notebook.candidate_words.
  rewrite Hps, bind_Ok. by rewrite (lookup_loop_ok word_length lookup ans).
Qed.

Lemma X9_candidate_words_concat_witness :
  Notebook.candidate_words 5 Examples.known_letters_loc Examples.lookup =
  Ok ["teiid"; "teind"; "tepid"; "teiid"; "fetid"; "betid"; "netid"].
Proof.
  refine (X9_candidate_words_concat 5 Examples.known_letters_loc Examples.lookup
            (fun p => match Examples.lookup p with Ok ws => ws | Raise _ => [] end)
            ["iet?d"; "tei?d"; "ie?td"; "te?id"; "?eitd"; "?etid"] _ _).
  - vm_compute. reflexivity.
  - intros p Hp. elem_of_cases Hp; vm_compute; reflexivity.
Defined.

(** X10: when the service raises on a pattern, after answering those
    before it, the lookup loop and the run end with that exception: the
    words collected so far are not reported. *)
Theorem X10_lookup_failure_aborts (word_length : nat) (known : list (ascii * Z))
    (avail_in : list ascii) (lookup : string -> result (list string))
    (ps1 ps2 : list string) (p : string) (e : exn) :
  Notebook.known_patterns word_length known = Ok (ps1 ++ p :: ps2) ->
  (forall q : string, q ∈ ps1 -> exists ws : list string, lookup q = Ok ws) ->
  lookup p = Raise e ->
  Notebook.candidate_words word_length known lookup = Raise e /\
  Notebook.run word_length known avail_in lookup = Raise e.
Proof.
  intros Hps Hok Hp.
  assert (Notebook.candidate_words word_length known lookup = Raise e) as Hcw.
  { unfold Notebook.candidate_words. rewrite Hps, bind_Ok. by apply lookup_loop_raise. }
  split; [done|]. unfold Notebook.run. by rewrite Hcw.
Qed.

Lemma X10_lookup_failure_aborts_witness :
  Notebook.run 5 Examples.known_letters_loc Examples.avail_letters
    (fun p => if decide (p = "te?id") then Raise RequestError else Examples.lookup p)
  = Raise RequestError.
Proof.
  refine (proj2 (X10_lookup_failure_aborts 5 Examples.known_letters_loc
                   Examples.avail_letters _
                   ["iet?d"; "tei?d"; "ie?td"] ["?eitd"; "?etid"] "te?id"
                   RequestError _ _ _)).
  - vm_compute. reflexivity.
  - intros q Hq. elem_of_cases Hq; eexists; vm_compute; reflexivity.
  - reflexivity.
Defined.

(** ** Errors of the fixed-position loop *)

Lemma foldlM_where_col_eq_out (n : nat) (fl : list (ascii * Z)) (rows : list np.row) :
  (forall f, f ∈ fl -> (0 <= f.2)%Z) ->
  (exists f, f ∈ fl /\ (Z.of_nat n <= f.2)%Z) ->
  Py.foldlM (fun (a : np.ndarray) (f : ascii * Z) => np.where_col_eq a f.2 f.1)
            (np.Arr2D n rows) fl
  = Raise IndexError.
Proof.
  revert rows. induction fl as [|f fl IH]; intros rows Hpos (g & Hg & Hout); simpl.
  - by apply elem_of_nil in Hg.
  - destruct (decide (f.2 < Z.of_nat n)%Z) as [Hlt|Hge].
    + rewrite (where_col_eq_2D n rows f.2 f.1 (Z.to_nat f.2)).
      * rewrite bind_Ok. apply IH; [intros ??; apply Hpos; by right|].
        exists g. split; [|done]. apply elem_of_cons in Hg as [->|?]; [lia|done].
      * apply index_in_range. split; [apply Hpos; by left|done].
    + rewrite (where_col_eq_raise n rows f.2 f.1 IndexError); [done|].
      apply index_out_of_range. lia.
Qed.

(** X11: when a fixed constraint is at or past [word_length] and a row is
    left by the allowed-letter filter, the last cell raises [IndexError] and
    nothing is printed. *)
Theorem X11_out_of_range_raises (word_length : nat) (known : list (ascii * Z))
    (avail_in : list ascii) (lookup : string -> result (list string))
    (cw : list string) :
  Notebook.candidate_words word_length known lookup = Ok cw ->
  np.tolist (Notebook.filtered_candidate_arr known avail_in cw) <> [] ->
  Spec.out_of_range word_length known ->
  Notebook.run word_length known avail_in lookup = Raise IndexError.
Proof.
  intros Hcw Hne (c & p & Hin & Hp).
  unfold Notebook.run. rewrite Hcw, bind_Ok.
  rewrite last_cell_nonempty by done.
  rewrite (filtered_candidate_arr_2D known avail_in word_length cw)
    by eauto using candidate_words_lengths.
  unfold Notebook.fixed_loop. rewrite foldlM_where_col_eq_out; [done| |].
  - apply fixed_letters_nonneg.
  - exists (c, p). split; [|done]. apply elem_of_fixed_letters. split; [done|lia].
Qed.

Lemma X11_out_of_range_raises_witness :
  Notebook.run 5 Examples.out_of_range_letters_loc [] (fun _ => Ok ["aaaaa"])
  = Raise IndexError.
Proof.
  refine (X11_out_of_range_raises 5 Examples.out_of_range_letters_loc []
            (fun _ => Ok ["aaaaa"]) ["aaaaa"] _ _ _).
  - vm_compute. reflexivity.
  - vm_compute. discriminate.
  - exists "a"%char, 7%Z. split; [apply list_elem_of_here|lia].
Defined.

(** X12: in the draft, which has no test for an empty array, the last cell
    raises [IndexError] when the service returns no word of [word_length]
    characters and the input has a fixed constraint; with no fixed
    constraint it prints the empty list. *)
Theorem X12_draft_no_words (word_length : nat) (known : list (ascii * Z))
    (lookup : string -> result (list string)) (ans : string -> list string) :
  (forall p : string, p ∈ Draft.known_patterns known -> lookup p = Ok (ans p)) ->
  (forall p w : string,
      p ∈ Draft.known_patterns known -> w ∈ ans p -> String.length w <> word_length) ->
  Draft.candidate_words word_length known lookup = Ok [] /\
  ((exists (c : ascii) (p : Z), (c, p) ∈ known /\ (0 <= p)%Z) ->
   Draft.run word_length known lookup = Raise IndexError) /\
  ((forall (c : ascii) (p : Z), (c, p) ∈ known -> (p < 0)%Z) ->
   Draft.run word_length known lookup = Ok []).
Proof.
  intros Hans Hlen.
  assert (Draft.candidate_words word_length known lookup = Ok []) as Hcw.
  { unfold Draft.candidate_words.
    rewrite (lookup_loop_ok word_length lookup ans) by done.
    rewrite filter_none; [done|].
    intros w (ws & (p & -> & Hp)%map_elem_of & Hw)%concat_elem_of.
    by apply (Hlen p w). }
  split; [done|]. unfold Draft.run. rewrite Hcw, bind_Ok.
  unfold Draft.list_candidate_words, Notebook.fixed_loop. cbn [Draft.candidate_arr map np.array np.unique].
  split.
  - intros (c & p & Hin).
    apply (proj2 (elem_of_fixed_letters known c p)) in Hin.
    destruct (Notebook.fixed_letters known) as [|f fl]; [by apply elem_of_nil in Hin|done].
  - intros Hneg.
    assert (Notebook.fixed_letters known = []) as ->; [|done].
    unfold Notebook.fixed_letters. rewrite filter_none; [done|].
    intros [c p] Hin%Hneg. simpl. lia.
Qed.

Lemma X12_draft_no_words_witness :
  Draft.run 5 Examples.draft_known_letters_loc (fun _ => Ok ["lilacs"]) = Raise IndexError.
Proof.
  refine (proj1 (proj2 (X12_draft_no_words 5 Examples.draft_known_letters_loc
                          (fun _ => Ok ["lilacs"]) (fun _ => ["lilacs"]) _ _)) _).
  - reflexivity.
  - intros p w _ Hw. elem_of_cases Hw. discriminate.
  - exists "i"%char, 1%Z. split; [|lia].
    apply list_elem_of_further, list_elem_of_here.
Defined.

(** ** The outputs of the two filters *)

Lemma join_chars_chars (w : string) : Py.join_chars (Py.chars w) = w.
Proof. apply string_of_list_ascii_of_string. Qed.

Lemma get_chars (w : string) (i : nat) : String.get i w = Py.chars w !! i.
Proof. by rewrite <- (join_chars_chars w) at 1; rewrite get_join_chars. Qed.

Lemma elem_of_map_chars (cw : list string) (w : string) :
  Py.chars w ∈ map Py.chars cw <-> w ∈ cw.
Proof.
  rewrite map_elem_of. split; [|by exists w].
  intros (w' & Heq & Hw'). apply (f_equal Py.join_chars) in Heq.
  rewrite !join_chars_chars in Heq. by subst.
Qed.

(** X13: on aggregated words of one length, at least one, and fixed
    positions inside that length, the draft prints, in increasing order and
    without repetition, exactly the aggregated words that have the letter of
    every fixed constraint in place. *)
Theorem X13_draft_output (known : list (ascii * Z)) (n : nat) (cw : list string) :
  cw <> [] ->
  Forall (fun w => String.length w = n) cw ->
  (forall (c : ascii) (p : Z), (c, p) ∈ known -> (0 <= p)%Z -> (p < Z.of_nat n)%Z) ->
  exists ws : list string,
    Draft.list_candidate_words known cw = Ok ws /\
    StronglySorted Spec.word_lt ws /\
    forall w : string,
      w ∈ ws <->
      w ∈ cw /\
      forall (c : ascii) (p : Z),
        (c, p) ∈ known -> (0 <= p)%Z -> String.get (Z.to_nat p) w = Some c.
Proof.
  intros Hne Hlen Hrange.
  unfold Draft.list_candidate_words, Draft.candidate_arr.
  rewrite (array_uniform n).
  - cbn [np.unique]. rewrite fixed_loop_2D by done. rewrite bind_Ok. cbn [np.tolist].
    eexists. split; [done|]. split.
    + apply StronglySorted_join_chars, StronglySorted_foldl_keep,
        StronglySorted_unique_rows.
    + intros w. rewrite map_elem_of. split.
      * intros (r & -> & [Hr Hfix]%elem_of_kept).
        apply elem_of_unique_rows, map_elem_of in Hr as (w' & -> & Hw').
        rewrite join_chars_chars. split; [done|].
        intros c p Hin Hp. rewrite get_chars. by apply Hfix.
      * intros [Hw Hfix]. exists (Py.chars w). split; [by rewrite join_chars_chars|].
        apply elem_of_kept. split; [by apply elem_of_unique_rows, elem_of_map_chars|].
        intros c p Hin Hp. rewrite <- get_chars. by apply Hfix.
  - apply Forall_forall. intros r (w & -> & Hw)%map_elem_of.
    rewrite length_chars. by eapply Forall_forall in Hlen.
  - by destruct cw.
Qed.

Lemma X13_draft_output_witness :
  exists ws : list string,
    Draft.list_candidate_words Examples.draft_known_letters_loc
      Examples.draft_candidate_words = Ok ws /\
    ("lilac" ∈ ws <->
     "lilac" ∈ Examples.draft_candidate_words /\
     forall (c : ascii) (p : Z),
       (c, p) ∈ Examples.draft_known_letters_loc -> (0 <= p)%Z ->
       String.get (Z.to_nat p) "lilac" = Some c).
Proof.
  destruct (X13_draft_output Examples.draft_known_letters_loc 5
              Examples.draft_candidate_words) as (ws & Hws & _ & Hiff).
  - discriminate.
  - repeat constructor.
  - intros c p H Hp. unfold Examples.draft_known_letters_loc in H. elem_of_cases H; lia.
  - exists ws. split; [exact Hws|exact (Hiff "lilac")].
Defined.

(** X14: on aggregated words of one length and fixed positions inside that
    length, the candidate filter of the notebook ends normally and the rows
    it leaves in [filtered_candidate_arr] are, in increasing order and
    without repetition, exactly the aggregated words whose characters are
    all allowed and that have the letter of every fixed constraint in
    place. *)
Theorem X14_candidate_filter_rows (known : list (ascii * Z)) (avail_in : list ascii)
    (n : nat) (cw : list string) :
  Forall (fun w => String.length w = n) cw ->
  (forall (c : ascii) (p : Z), (c, p) ∈ known -> (0 <= p)%Z -> (p < Z.of_nat n)%Z) ->
  exists out : list np.row,
    Notebook.candidate_filter known avail_in cw = Ok out /\
    StronglySorted Spec.row_lt out /\
    forall r : np.row,
      r ∈ out <->
      (exists w : string, w ∈ cw /\ r = Py.chars w) /\
      (forall c : ascii, c ∈ r -> c ∈ Notebook.avail_letters known avail_in) /\
      (forall (c : ascii) (p : Z),
          (c, p) ∈ known -> (0 <= p)%Z -> r !! Z.to_nat p = Some c).
Proof.
  intros Hlen Hrange.
  destruct (filtered_rows_spec known avail_in n cw Hlen) as (Hsorted & _ & _).
  set (frows := filter (allowed known avail_in) (foldr np.insert_row [] (map Py.chars cw)))
    in *.
  assert (forall r, r ∈ frows <->
            (exists w, w ∈ cw /\ r = Py.chars w) /\
            (forall c, c ∈ r -> c ∈ Notebook.avail_letters known avail_in)) as Hfrows.
  { intros r. unfold frows.
    rewrite list_elem_of_filter, allowed_iff, elem_of_unique_rows, map_elem_of.
    split; intros [? (w & ? & ?)] || intros [(w & ? & ?) ?]; (split; [|by eauto]); eauto. }
  unfold Notebook.candidate_filter.
  destruct (decide (np.tolist (Notebook.filtered_candidate_arr known avail_in cw) = []))
    as [Hnil|Hne].
  - rewrite last_cell_empty by done. cbn [fmap Py.result_fmap snd]. rewrite Hnil.
    eexists. split; [done|]. split; [constructor|].
    intros r. split; [by intros ?%elem_of_nil|].
    intros (Hw & Hal & _).
    rewrite tolist_filtered_candidate_arr in Hnil. fold frows in Hnil.
    assert (r ∈ frows) as Hr by (by apply Hfrows). rewrite Hnil in Hr.
    by apply elem_of_nil in Hr.
  - rewrite last_cell_nonempty by done.
    rewrite (filtered_candidate_arr_2D known avail_in n cw) by done. fold frows.
    rewrite fixed_loop_2D by done.
    cbn [mbind Py.result_bind fmap Py.result_fmap snd np.tolist].
    eexists. split; [done|]. split; [by apply StronglySorted_foldl_keep|].
    intros r. rewrite elem_of_kept, Hfrows. tauto.
Qed.

Lemma X14_candidate_filter_rows_witness :
  exists out : list np.row,
    Notebook.candidate_filter Examples.known_letters_loc Examples.avail_letters
      Examples.candidate_words = Ok out /\
    StronglySorted Spec.row_lt out.
Proof.
  destruct (X14_candidate_filter_rows Examples.known_letters_loc Examples.avail_letters 5
              Examples.candidate_words) as (out & Hout & Hsorted & _).
  - repeat constructor.
  - exact example_positions_in_range.
  - exists out. split; [exact Hout|exact Hsorted].
Defined.

(** ** The patterns of the draft *)

Lemma length_string_app (s1 s2 : string) :
  String.length (s1 +:+ s2) = String.length s1 + String.length s2.
Proof. induction s1 as [|c s1 IH]; simpl; [done|]. by rewrite IH. Qed.

Lemma length_join_star (c : list ascii) :
  String.length (Py.join "*" (map Py.str c)) = 2 * length c - 1.
Proof.
  induction c as [|x [|y c] IH]; [done..|].
  change (Py.join "*" (map Py.str (x :: y :: c)))
    with (Py.str x +:+ "*" +:+ Py.join "*" (map Py.str (y :: c))).
  rewrite !length_string_app, IH. simpl. lia.
Qed.

(** X15: the draft builds one pattern for each ordering of all the known
    letters, [n!] patterns for [n] constraints; a pattern is the letters of
    an ordering between [*] characters, so it has [2 n + 1] characters for
    [n > 0], and for no constraint the only pattern is two [*]. *)
Theorem X15_draft_patterns (known : list (ascii * Z)) :
  length (Draft.known_patterns known) = fact (length known) /\
  (forall pat : string,
      pat ∈ Draft.known_patterns known <->
      exists c : list ascii,
        c ≡ₚ map fst known /\ pat = "*" +:+ Py.join "*" (map Py.str c) +:+ "*") /\
  (forall pat : string,
      pat ∈ Draft.known_patterns known ->
      String.length pat = 2 + (2 * length known - 1)).
Proof.
  unfold Draft.known_patterns, Draft.known_combos, Draft.known_letters.
  split; [|split].
  - by rewrite length_map, length_permutations, length_map.
  - intros pat. rewrite map_elem_of. split.
    + intros (c & -> & Hc%permutations_perm). by exists c.
    + intros (c & Hc & ->). exists c. split; [done|]. by apply permutations_complete.
  - intros pat (c & -> & Hc%permutations_perm)%map_elem_of.
    rewrite !length_string_app, length_join_star.
    apply Permutation_length in Hc. rewrite length_map in Hc. rewrite Hc. simpl. lia.
Qed.

(** ** The characters of the patterns *)

Lemma foldl_write_lookup (xs : list (nat * ascii)) (pat : list ascii) (i : nat) (c : ascii) :
  foldl (fun (pat : list ascii) (x : nat * ascii) => <[x.1 := x.2]> pat) pat xs !! i
    = Some c ->
  pat !! i = Some c \/ c ∈ xs.*2.
Proof.
  revert pat. induction xs as [|[i' c'] xs IH]; intros pat; simpl; [by left|].
  intros [H|H]%IH.
  - apply list_lookup_insert_Some in H as [(-> & -> & _)|[_ H]].
    + right. by left.
    + by left.
  - right. by right.
Qed.

(** X16: on every input, also with conflicting or out-of-range constraints,
    the pattern cell does not raise, every pattern has [word_length]
    characters, and each character of a pattern is the wildcard, the letter
    of a fixed constraint on that position, or a floating letter. *)
Theorem X16_pattern_characters (word_length : nat) (known : list (ascii * Z)) :
  exists patterns : list string,
    Notebook.known_patterns word_length known = Ok patterns /\
    forall pat : string, pat ∈ patterns ->
      String.length pat = word_length /\
      forall (i : nat) (c : ascii),
        String.get i pat = Some c ->
        c = "?"%char \/ (c, Z.of_nat i) ∈ known \/
        exists p : Z, (c, p) ∈ known /\ (p < 0)%Z.
Proof.
  eexists. split; [apply known_patterns_ok|].
  intros pat (perm & -> & Hperm)%map_elem_of. split.
  - by rewrite length_join_chars, length_written.
  - intros i c. rewrite get_join_chars. unfold written.
    intros [H|H]%foldl_write_lookup.
    + assert (i < word_length) as Hi.
      { apply lookup_lt_Some in H. by rewrite length_known_pattern in H. }
      rewrite lookup_known_pattern in H by done.
      destruct (Notebook.dict_letters known !! Z.of_nat i) as [c'|] eqn:E.
      * injection H as ->. apply dict_letters_Some in E as [? _]. right. by left.
      * injection H as <-. by left.
    + right. right.
      apply list_elem_of_fmap in H as ([i' c'] & -> & Hin). simpl.
      apply elem_of_zip_r in Hin. unfold Notebook.unknown_letters in Hin.
      apply map_elem_of in Hin as ([c'' p] & -> & [? ?]%elem_of_sorted%list_elem_of_filter).
      by exists p.
Qed.

(** ** A service that answers with matching words *)

Section matching_service.

Variable word_length : nat.
Variable known : list (ascii * Z).

(** On valid constraints every pattern has the fixed letters in place. *)
Lemma patterns_fixed (patterns : list string) (pat : string) (c : ascii) (p : Z) :
  Spec.positions_in_range word_length known ->
  Spec.no_conflict known ->
  Notebook.known_patterns word_length known = Ok patterns ->
  pat ∈ patterns ->
  (c, p) ∈ known -> (0 <= p)%Z ->
  String.get (Z.to_nat p) pat = Some c.
Proof.
  intros Hrange Hnc Hps Hpat Hin Hp.
  rewrite known_patterns_ok in Hps. injection Hps as <-.
  apply map_elem_of in Hpat as (perm & -> & Hperm).
  apply perms_unknown_combos_spec in Hperm as (Hlen & _ & Hopen).
  rewrite get_join_chars, written_other; [|done|].
  - pose proof (Hrange c p Hin Hp).
    rewrite lookup_known_pattern by lia.
    by rewrite Z2Nat.id, (dict_letters_fixed known p c).
  - intros [_ Hi]%Hopen. apply (Hi c). by rewrite Z2Nat.id.
Qed.

End matching_service.

(** X17: on valid constraints whose fixed letters are not the wildcard
    character, and with a service that only returns words carrying the
    characters of the pattern it is asked at the positions that are not
    wildcards, every word that the run prints has the letter of every fixed
    constraint in place. *)
Theorem X17_matching_service (word_length : nat) (known : list (ascii * Z))
    (avail_in : list ascii) (lookup : string -> result (list string))
    (ws : list string) :
  Spec.positions_in_range word_length known ->
  Spec.no_conflict known ->
  (forall (c : ascii) (p : Z), (c, p) ∈ known -> (0 <= p)%Z -> c <> "?"%char) ->
  (forall (pat : string) (answer : list string) (w : string) (i : nat) (c : ascii),
      lookup pat = Ok answer -> w ∈ answer ->
      String.get i pat = Some c -> c <> "?"%char -> String.get i w = Some c) ->
  Notebook.run word_length known avail_in lookup = Ok (Notebook.Lines ws) ->
  forall w : string, w ∈ ws ->
    forall (c : ascii) (p : Z),
      (c, p) ∈ known -> (0 <= p)%Z -> String.get (Z.to_nat p) w = Some c.
Proof.
  intros Hrange Hnc Hletters Hmatch Hrun w Hw c p Hin Hp.
  unfold Notebook.run, Notebook.candidate_words in Hrun.
  destruct (Notebook.known_patterns word_length known) as [patterns|e] eqn:Hps; [|done].
  rewrite bind_Ok in Hrun.
  destruct (Notebook.lookup_loop word_length lookup patterns []) as [cw|e] eqn:Hloop;
    [|done].
  rewrite bind_Ok in Hrun.
  destruct (Notebook.last_cell known avail_in cw) as [[out a']|e] eqn:Hcell; [|done].
  injection Hrun as ->.
  apply last_cell_lines in Hcell as [-> _].
  rewrite tolist_filtered_candidate_arr in Hw.
  apply map_elem_of in Hw as (r & -> & [_ Hr]%list_elem_of_filter).
  apply elem_of_unique_rows, map_elem_of in Hr as (w & -> & Hw).
  rewrite join_chars_chars.
  destruct (lookup_loop_elem_of _ _ _ _ _ w Hloop Hw)
    as [?%elem_of_nil|(pat & answer & Hpat & Hans & Hwa)]; [done|].
  apply (Hmatch pat answer w _ c Hans Hwa); [|by eapply Hletters].
  by eapply patterns_fixed.
Qed.

Lemma example_lookup_matches (pat : string) (answer : list string) (w : string)
    (i : nat) (c : ascii) :
  Examples.lookup pat = Ok answer -> w ∈ answer ->
  String.get i pat = Some c -> c <> "?"%char -> String.get i w = Some c.
Proof.
  unfold Examples.lookup. intros Hans Hw Hget Hc.
  repeat case_decide; subst; injection Hans as <-; elem_of_cases Hw;
    do 5 (destruct i as [|i]; [simpl in Hget; by simplify_eq|]); done.
Qed.

Lemma X17_matching_service_witness :
  Notebook.run 5 Examples.known_letters_loc Examples.avail_letters Examples.lookup
    = Ok (Notebook.Lines ["betid"; "fetid"; "teiid"]) /\
  String.get (Z.to_nat 4) "teiid" = Some "d"%char.
Proof.
  assert (Notebook.run 5 Examples.known_letters_loc Examples.avail_letters Examples.lookup
          = Ok (Notebook.Lines ["betid"; "fetid"; "teiid"])) as Hrun
    by (vm_compute; reflexivity).
  split; [exact Hrun|].
  refine (X17_matching_service 5 Examples.known_letters_loc Examples.avail_letters
            Examples.lookup ["betid"; "fetid"; "teiid"]
            example_positions_in_range example_no_conflict _ example_lookup_matches
            Hrun "teiid" _ "d"%char 4%Z _ _).
  - intros c p H _. unfold Examples.known_letters_loc in H. elem_of_cases H; discriminate.
  - do 2 apply list_elem_of_further. apply list_elem_of_here.
  - apply list_elem_of_further, list_elem_of_here.
  - lia.
Defined.
